(** * CarMod Showdown backend: the voting / qualification engine

    A shallow embedding of the vote handlers of the Express server
    (getCurrentWeek, GET /api/voting/batch/:userId, POST /api/vote,
    GET /api/winners/:weekNumber, and the two writers of submissions the
    invariants need: POST /api/upload-part and
    POST /api/admin/select-winner/:id), with the PostgreSQL tables
    [submissions] and [user_votes] as explicit state.

    Conventions of the embedding:
    - a table is the list of its rows; a [SELECT] without [ORDER BY]
      returns the rows in table order, an [UPDATE] rewrites rows in place;
    - integer columns and JavaScript integers are [Z] (no overflow); the
      ids of a request are integers, as the columns they are compared to;
    - the two computations the server does in double precision (the vote
      threshold and the approval rating) are taken exactly, over [Q];
      module [Double] holds the same computations on binary64 floats and
      the two are compared on a range of inputs;
    - [NOW()] and [new Date()] are an explicit argument, in milliseconds
      since the epoch; [RANDOM()] is an explicit oracle from row ids to
      sort keys;
    - the schema of the tables is not part of the server file: what the
      store does with the [INSERT] into [user_votes] (column types, foreign
      keys) is the parameter [insert_ok]; the unique key
      (voter_id, submission_id) is named by the [ON CONFLICT] clause;
    - a handler is a function from the store to the new store and the
      HTTP response. *)

From Stdlib Require Import ZArith String List Bool Lia QArith Qround
  Permutation Sorted.
From Stdlib Require Import PrimFloat FloatOps SpecFloat Uint63.
Import ListNotations.
Open Scope Z_scope.

(** ** JavaScript values of a request body *)

Module JS.

Inductive value : Type :=
| Undefined
| Null
| Bool (b : bool)
| Num (n : Z)       (* a number with an integer value *)
| Str (s : string).

(** [v === n] for a number literal [n]: no coercion takes place. *)
Definition strict_eq_num (v : value) (n : Z) : bool :=
  match v with
  | Num m => m =? n
  | _ => false
  end.

End JS.

(** ** Competition clock *)

Definition ms_per_day : Z := 1000 * 60 * 60 * 24.

(** [new Date('2025-10-07')]: midnight UTC, in milliseconds. *)
Definition startDate : Z := 1759795200000.

Definition ms_per_week : Z := 7 * ms_per_day.

(** [Math.floor (a / b)] for integers [a] and positive [b]. *)
Definition js_floor_div (a b : Z) : Z := a / b.

Definition getCurrentWeek (now : Z) : Z :=
  let diffTime := now - startDate in
  let diffDays := js_floor_div diffTime ms_per_day in
  let weekNumber := js_floor_div diffDays 7 + 1 in
  if weekNumber <? 1 then 0
  else if weekNumber >? 10 then 11
  else weekNumber.

(** ** The store *)

Record Submission : Type := mkSubmission {
  id : Z;
  user_id : Z;
  week_number : Z;
  status : string;
  times_shown : Z;
  thumbs_up : Z;
  thumbs_down : Z;
  total_votes : Z;
  votes_completed : Z;
  qualified_at : option Z;
  is_winner : bool
}.

Record UserVote : Type := mkUserVote {
  voter_id : Z;
  submission_id : Z;
  vote_value : JS.value
}.

Record DB : Type := mkDB {
  submissions : list Submission;
  user_votes : list UserVote
}.

Definition empty_db : DB := mkDB [] [].

Definition PENDING : string := "PENDING"%string.
Definition QUALIFIED : string := "QUALIFIED"%string.

(** *** SQL primitives *)

(** [UPDATE submissions SET ... WHERE p]. *)
Definition update_where (p : Submission -> bool)
    (f : Submission -> Submission) (tbl : list Submission) : list Submission :=
  map (fun r => if p r then f r else r) tbl.

(** [SELECT * FROM submissions WHERE p]. *)
Definition select_where (p : Submission -> bool) (tbl : list Submission)
    : list Submission :=
  filter p tbl.

Definition same_key (v w : UserVote) : bool :=
  (voter_id v =? voter_id w) && (submission_id v =? submission_id w).

(** [INSERT INTO user_votes ... ON CONFLICT (voter_id, submission_id)
    DO NOTHING]. *)
Definition insert_vote (v : UserVote) (votes : list UserVote) : list UserVote :=
  if existsb (same_key v) votes then votes else votes ++ [v].

(** [SELECT COUNT( * ) FROM user_votes WHERE voter_id = $1]. *)
Definition count_votes (voter : Z) (votes : list UserVote) : Z :=
  Z.of_nat (length (filter (fun v => voter_id v =? voter) votes)).

(** Setters of the columns the handlers write. *)
Definition add_thumbs_up (r : Submission) : Submission :=
  mkSubmission (id r) (user_id r) (week_number r) (status r) (times_shown r)
    (thumbs_up r + 1) (thumbs_down r) (total_votes r + 1)
    (votes_completed r) (qualified_at r) (is_winner r).

Definition add_thumbs_down (r : Submission) : Submission :=
  mkSubmission (id r) (user_id r) (week_number r) (status r) (times_shown r)
    (thumbs_up r) (thumbs_down r + 1) (total_votes r + 1)
    (votes_completed r) (qualified_at r) (is_winner r).

Definition set_votes_completed (n : Z) (r : Submission) : Submission :=
  mkSubmission (id r) (user_id r) (week_number r) (status r) (times_shown r)
    (thumbs_up r) (thumbs_down r) (total_votes r)
    n (qualified_at r) (is_winner r).

Definition set_qualified (now : Z) (r : Submission) : Submission :=
  mkSubmission (id r) (user_id r) (week_number r) QUALIFIED (times_shown r)
    (thumbs_up r) (thumbs_down r) (total_votes r)
    (votes_completed r) (Some now) (is_winner r).

Definition add_times_shown (r : Submission) : Submission :=
  mkSubmission (id r) (user_id r) (week_number r) (status r)
    (times_shown r + 1)
    (thumbs_up r) (thumbs_down r) (total_votes r)
    (votes_completed r) (qualified_at r) (is_winner r).

Definition set_winner (r : Submission) : Submission :=
  mkSubmission (id r) (user_id r) (week_number r) "winner"%string (times_shown r)
    (thumbs_up r) (thumbs_down r) (total_votes r)
    (votes_completed r) (qualified_at r) true.

(** The received-vote counters of a row. *)
Definition tallies (r : Submission) : Z * Z * Z :=
  (thumbs_up r, thumbs_down r, total_votes r).

(** The columns the qualification tracker writes. *)
Definition tracked (r : Submission) : Z * string * option Z :=
  (votes_completed r, status r, qualified_at r).

Definition tally_ok (r : Submission) : Prop :=
  total_votes r = thumbs_up r + thumbs_down r.

Definition has_id (i : Z) (r : Submission) : bool := id r =? i.
Definition owned_by (u : Z) (r : Submission) : bool := user_id r =? u.

(** ** POST /api/vote *)

Record VoteCall : Type := mkVoteCall {
  call_now : Z;
  voterId : Z;
  submissionId : Z;
  voteValue : JS.value
}.

Inductive VoteResponse : Type :=
| VoteOk (votesCompleted : Z) (votesRequired : Z) (qualified : bool)
| VoteFailed.   (* status 500, success: false *)

Definition vote_success (r : VoteResponse) : bool :=
  match r with VoteOk _ _ _ => true | VoteFailed => false end.

Definition vote_qualified (r : VoteResponse) : bool :=
  match r with VoteOk _ _ q => q | VoteFailed => false end.

Definition vote_row (c : VoteCall) : UserVote :=
  mkUserVote (voterId c) (submissionId c) (voteValue c).

Section Vote.

(** Whether the store accepts the [INSERT] of a row into [user_votes]
    (column types, foreign keys); when it does not, the query throws and
    the handler answers from its [catch] block. *)
Variable insert_ok : DB -> UserVote -> bool.

Definition castVote (c : VoteCall) (db : DB) : DB * VoteResponse :=
  let row := vote_row c in
  if negb (insert_ok db row) then (db, VoteFailed) else
  (* Record vote *)
  let votes := insert_vote row (user_votes db) in
  (* Update submission stats *)
  let subs1 :=
    if JS.strict_eq_num (voteValue c) 1
    then update_where (has_id (submissionId c)) add_thumbs_up (submissions db)
    else update_where (has_id (submissionId c)) add_thumbs_down (submissions db) in
  (* Check if voter has their own submission *)
  match select_where (owned_by (voterId c)) subs1 with
  | [] => (mkDB subs1 votes, VoteOk 0 25 false)
  | voterSubmission :: _ =>
      let voteCount := count_votes (voterId c) votes in
      let subs2 :=
        update_where (owned_by (voterId c)) (set_votes_completed voteCount) subs1 in
      if (voteCount >=? 25) && (status voterSubmission =? PENDING)%string
      then (mkDB (update_where (owned_by (voterId c))
                    (set_qualified (call_now c)) subs2) votes,
            VoteOk voteCount 25 true)
      else (mkDB subs2 votes, VoteOk voteCount 25 false)
  end.

Definition run_votes (calls : list VoteCall) (db : DB) : DB :=
  fold_left (fun d c => fst (castVote c d)) calls db.

End Vote.

(** The two statements under "Update submission stats", as one update. *)
Definition count_vote (c : VoteCall) : Submission -> Submission :=
  if JS.strict_eq_num (voteValue c) 1 then add_thumbs_up else add_thumbs_down.

Definition counted (c : VoteCall) (tbl : list Submission) : list Submission :=
  update_where (has_id (submissionId c)) (count_vote c) tbl.

(** The submissions of a user, and the number of votes a user has cast. *)
Definition owned (u : Z) (db : DB) : list Submission :=
  select_where (owned_by u) (submissions db).

Definition cast_count (u : Z) (db : DB) : Z :=
  count_votes u (user_votes db).

(** The two phases of a submitter [v]: still short of the quota with every
    submission PENDING, and qualified by the call made at time [t]. *)
Definition awaiting_quota (v : Z) (db : DB) : Prop :=
  owned v db <> []
  /\ cast_count v db < 25
  /\ Forall (fun r => status r = PENDING) (owned v db).

Definition qualified_since (v t : Z) (db : DB) : Prop :=
  25 <= cast_count v db
  /\ Forall (fun r => status r = QUALIFIED /\ qualified_at r = Some t)
       (owned v db).

(** A store whose [user_votes] table takes every row. *)
Definition accept_all : DB -> UserVote -> bool := fun _ _ => true.

(** ** ORDER BY and LIMIT *)

Section OrderBy.

Context {A : Type}.

(** [leb a b]: row [a] may stand before row [b]. *)
Variable leb : A -> A -> bool.

Fixpoint insert_row (x : A) (l : list A) : list A :=
  match l with
  | [] => [x]
  | y :: l' => if leb x y then x :: l else y :: insert_row x l'
  end.

Definition order_by (l : list A) : list A := fold_right insert_row [] l.

End OrderBy.

Definition limit {A : Type} (n : nat) (l : list A) : list A := firstn n l.

(** ** GET /api/voting/batch/:userId *)

(** [SELECT submission_id FROM user_votes WHERE voter_id = $1]. *)
Definition voted_ids (userId : Z) (votes : list UserVote) : list Z :=
  map submission_id (filter (fun v => voter_id v =? userId) votes).

(** [user_id != $1 AND id NOT IN (...)]. *)
Definition unvoted_candidate (userId : Z) (db : DB) (r : Submission) : bool :=
  negb (user_id r =? userId)
  && negb (existsb (Z.eqb (id r)) (voted_ids userId (user_votes db))).

(** [ORDER BY times_shown ASC, RANDOM()]; [rnd] gives the random key
    drawn for a row. *)
Definition shown_leb (rnd : Z -> Z) (a b : Submission) : bool :=
  (times_shown a <? times_shown b)
  || ((times_shown a =? times_shown b) && (rnd (id a) <=? rnd (id b))).

Definition qualified_candidates (userId : Z) (db : DB) : list Submission :=
  select_where
    (fun r => unvoted_candidate userId db r && (status r =? QUALIFIED)%string)
    (submissions db).

Definition all_candidates (userId : Z) (db : DB) : list Submission :=
  select_where (unvoted_candidate userId db) (submissions db).

Definition qualified_query (rnd : Z -> Z) (userId : Z) (db : DB)
    : list Submission :=
  limit 25 (order_by (shown_leb rnd) (qualified_candidates userId db)).

Definition pending_query (rnd : Z -> Z) (userId : Z) (db : DB)
    : list Submission :=
  limit 25 (order_by (shown_leb rnd) (all_candidates userId db)).

(** The loop [for (const entry of entries) UPDATE ... WHERE id = entry.id]. *)
Definition mark_shown (entries : list Submission) (tbl : list Submission)
    : list Submission :=
  fold_left (fun t e => update_where (has_id (id e)) add_times_shown t)
    entries tbl.

Record BatchResponse : Type := mkBatchResponse {
  batch_success : bool;
  entries : list Submission
}.

Definition getVotingBatch (rnd rnd' : Z -> Z) (userId : Z) (db : DB)
    : DB * BatchResponse :=
  let entries := qualified_query rnd userId db in
  (* If no qualified entries, return pending entries (for early voting) *)
  if (List.length entries =? 0)%nat then
    let pendingEntries := pending_query rnd' userId db in
    (mkDB (mark_shown pendingEntries (submissions db)) (user_votes db),
     mkBatchResponse true pendingEntries)
  else
    (mkDB (mark_shown entries (submissions db)) (user_votes db),
     mkBatchResponse true entries).

(** ** GET /api/winners/:weekNumber *)

(** [SELECT COUNT(DISTINCT voter_id) FROM user_votes]. *)
Definition count_distinct_voters (votes : list UserVote) : Z :=
  Z.of_nat (List.length (nodup Z.eq_dec (map voter_id votes))).

(** [Math.max(Math.ceil(totalVoters * 0.20), 1)], the product taken
    exactly. *)
Definition minimumVotes (totalVoters : Z) : Z :=
  Z.max (Qceiling (inject_Z totalVoters * (20 # 100))) 1.

(** [CASE WHEN total_votes > 0 THEN thumbs_up::FLOAT / total_votes * 100
    ELSE 0 END], the quotient taken exactly. *)
Definition approval_rating (r : Submission) : Q :=
  if total_votes r >? 0
  then (inject_Z (thumbs_up r) / inject_Z (total_votes r)) * inject_Z 100
  else 0%Q.

(** [ORDER BY approval_rating DESC, total_votes DESC]. *)
Definition winner_leb (a b : Submission) : bool :=
  negb (Qle_bool (approval_rating a) (approval_rating b))
  || (Qeq_bool (approval_rating a) (approval_rating b)
      && (total_votes b <=? total_votes a)).

Definition winner_eligible (weekNumber minVotes : Z) (r : Submission) : bool :=
  (week_number r =? weekNumber)
  && (status r =? QUALIFIED)%string
  && (total_votes r >=? minVotes).

Record WinnerRow : Type := mkWinnerRow {
  row : Submission;
  row_approval_rating : Q
}.

Record WinnersResponse : Type := mkWinnersResponse {
  winners_success : bool;
  winners : list WinnerRow;
  winners_minimumVotes : Z
}.

Definition winners_query (weekNumber minVotes : Z) (tbl : list Submission)
    : list Submission :=
  limit 10 (order_by winner_leb
              (select_where (winner_eligible weekNumber minVotes) tbl)).

Definition getWinners (weekNumber : Z) (db : DB) : DB * WinnersResponse :=
  let totalVoters := count_distinct_voters (user_votes db) in
  let minVotes := minimumVotes totalVoters in
  let rows := winners_query weekNumber minVotes (submissions db) in
  (db,
   mkWinnersResponse true
     (map (fun r => mkWinnerRow r (approval_rating r)) rows) minVotes).

(** *** The same computations in double precision *)

Module Double.

Definition of_Z (n : Z) : float := PrimFloat.of_uint63 (Uint63.of_Z n).

(** [Math.ceil] of a finite double. *)
Definition ceil (f : float) : Z :=
  match Prim2SF f with
  | S754_finite s m e =>
      let v := if s then Z.neg m else Z.pos m in
      if e <? 0 then - ((- v) / 2 ^ (- e)) else v * 2 ^ e
  | _ => 0
  end.

(** [Math.max(Math.ceil(totalVoters * 0.20), 1)]; the literal is the
    double next to 0.20. *)
Definition minimumVotes_f64 (totalVoters : Z) : Z :=
  Z.max (ceil (of_Z totalVoters * 0x1.999999999999ap-3)%float) 1.

Definition approval_rating_f64 (r : Submission) : float :=
  if total_votes r >? 0
  then (of_Z (thumbs_up r) / of_Z (total_votes r) * 100)%float
  else 0%float.

Definition winner_leb_f64 (a b : Submission) : bool :=
  (approval_rating_f64 b <? approval_rating_f64 a)%float
  || ((approval_rating_f64 a =? approval_rating_f64 b)%float
      && (total_votes b <=? total_votes a)).

End Double.

(** ** POST /api/upload-part and POST /api/admin/select-winner/:id *)

Definition next_id (tbl : list Submission) : Z :=
  fold_right (fun r m => Z.max (id r) m) 0 tbl + 1.

(** Modelled from the spec: the column defaults of [submissions] (the
    schema is not in the server file): a submission is created with all
    counters zero, no [qualified_at] and [is_winner] false; its [id] is
    one the table does not hold yet. *)
Definition new_submission (tbl : list Submission) (userId weekNumber : Z)
    : Submission :=
  mkSubmission (next_id tbl) userId weekNumber PENDING 0 0 0 0 0 None false.

Inductive UploadResponse : Type :=
| UploadOk (r : Submission)
| UploadBadRequest        (* no file, or a required field is missing *)
| UploadNotStarted        (* 'Competition has not started yet!' *)
| UploadEnded.            (* 'Competition has ended!' *)

(** [form_ok]: a file was sent with partName, partType and carModel. *)
Definition uploadPart (now : Z) (userId : Z) (form_ok : bool) (db : DB)
    : DB * UploadResponse :=
  if negb form_ok then (db, UploadBadRequest) else
  let weekNumber := getCurrentWeek now in
  if weekNumber =? 0 then (db, UploadNotStarted)
  else if weekNumber =? 11 then (db, UploadEnded)
  else
    let r := new_submission (submissions db) userId weekNumber in
    (mkDB (submissions db ++ [r]) (user_votes db), UploadOk r).

Inductive SelectWinnerResponse : Type :=
| SelectOk (r : Submission)
| SelectForbidden
| SelectNotFound.

Definition selectWinner (is_admin : bool) (sid : Z) (db : DB)
    : DB * SelectWinnerResponse :=
  if negb is_admin then (db, SelectForbidden) else
  let tbl := update_where (has_id sid) set_winner (submissions db) in
  match select_where (has_id sid) tbl with
  | [] => (db, SelectNotFound)
  | r :: _ => (mkDB tbl (user_votes db), SelectOk r)
  end.

(** ** Request traces *)

Inductive Request : Type :=
| ReqUpload (now userId : Z) (form_ok : bool)
| ReqBatch (rnd rnd' : Z -> Z) (userId : Z)
| ReqVote (c : VoteCall)
| ReqWinners (weekNumber : Z)
| ReqSelectWinner (is_admin : bool) (sid : Z).

Section Server.

Variable insert_ok : DB -> UserVote -> bool.

Definition handle (q : Request) (db : DB) : DB :=
  match q with
  | ReqUpload now u ok => fst (uploadPart now u ok db)
  | ReqBatch rnd rnd' u => fst (getVotingBatch rnd rnd' u db)
  | ReqVote c => fst (castVote insert_ok c db)
  | ReqWinners w => fst (getWinners w db)
  | ReqSelectWinner a sid => fst (selectWinner a sid db)
  end.

Definition serve (qs : list Request) (db : DB) : DB :=
  fold_left (fun d q => handle q d) qs db.

End Server.

(** ** Sample stores and requests *)

(** A submission as the upload leaves it. *)
Definition fresh (i owner : Z) : Submission :=
  mkSubmission i owner 1 PENDING 0 0 0 0 0 None false.

Definition during_week_1 : Z := startDate + 3 * ms_per_day.

Definition sample_trace : list Request :=
  [ ReqUpload during_week_1 7 true;
    ReqVote (mkVoteCall during_week_1 8 1 (JS.Num 1));
    ReqVote (mkVoteCall during_week_1 9 1 (JS.Num 0));
    ReqBatch (fun i => i) (fun i => i) 8;
    ReqVote (mkVoteCall during_week_1 9 1 (JS.Num 1)) ].

Definition self_db : DB := mkDB [fresh 1 7] [].
Definition self_call : VoteCall := mkVoteCall during_week_1 7 1 (JS.Num 1).

Definition dup_db : DB := mkDB [fresh 1 2] [].
Definition dup_call : VoteCall := mkVoteCall during_week_1 3 1 (JS.Num 1).
Definition dup_call' : VoteCall := mkVoteCall during_week_1 3 1 (JS.Num 0).

Definition malformed_call : VoteCall :=
  mkVoteCall during_week_1 3 1 (JS.Str "up").
Definition missing_call : VoteCall :=
  mkVoteCall during_week_1 3 1 JS.Undefined.

(** [k] votes of [voter], on the submissions [from], [from + 1], ... *)
Definition votes_of (voter : Z) (from : nat) (k : nat) : list UserVote :=
  map (fun i => mkUserVote voter (Z.of_nat i) (JS.Num 1)) (seq from k).

Definition with_status (st : string) (r : Submission) : Submission :=
  mkSubmission (id r) (user_id r) (week_number r) st (times_shown r)
    (thumbs_up r) (thumbs_down r) (total_votes r)
    (votes_completed r) (qualified_at r) (is_winner r).

(** User 7 owns submissions 1 and 2 and has cast 24 votes; user 5 owns
    submission 3. *)
Definition two_owned_db (st1 st2 : string) : DB :=
  mkDB [with_status st1 (fresh 1 7); fresh 3 5; with_status st2 (fresh 2 7)]
       (votes_of 7 100 24).

Definition quota_call : VoteCall := mkVoteCall during_week_1 7 3 (JS.Num 1).

(** User 7 owns submission 1 and has not voted yet; user 5 owns the
    submissions 100 .. 124. *)
Definition quota_db : DB :=
  mkDB (fresh 1 7 :: map (fun i => fresh (Z.of_nat i) 5) (seq 100 25)) [].

Definition votes_on (voter : Z) (from k : nat) : list VoteCall :=
  map (fun i => mkVoteCall during_week_1 voter (Z.of_nat i) (JS.Num 1))
      (seq from k).

Definition last_call : VoteCall :=
  mkVoteCall (during_week_1 + 1000) 7 124 (JS.Num 0).

(** Whether a row is one of the entries of a batch (by id). *)
Definition returned (es : list Submission) (r : Submission) : bool :=
  existsb (fun e => id e =? id r) es.

(** Voter 9 has voted on submission 4; submission 1 is QUALIFIED, the
    others are PENDING; submission 5 is voter 9's own. *)
Definition batch_db : DB :=
  mkDB [with_status QUALIFIED (fresh 1 2); fresh 3 4; fresh 4 6; fresh 5 9]
       [mkUserVote 9 4 (JS.Num 1)].

Definition early_db : DB :=
  mkDB [fresh 3 4; fresh 4 6; fresh 5 9] [mkUserVote 9 4 (JS.Num 1)].

Definition by_id : Z -> Z := fun i => i.

(** The order of the winners list, on the exact ratings. *)
Definition ranks_before (a b : Submission) : Prop :=
  (approval_rating b < approval_rating a)%Q
  \/ ((approval_rating a == approval_rating b)%Q
      /\ total_votes b <= total_votes a).

Definition tallied (i week : Z) (st : string) (up down : Z) : Submission :=
  mkSubmission i 2 week st 0 up down (up + down) 0 None false.

(** Ten distinct voters; week 1 holds a QUALIFIED submission with one
    vote, one with 3 of 3 up, one with 6 of 10 up and a PENDING one. *)
Definition winners_db : DB :=
  mkDB [tallied 1 1 QUALIFIED 1 0; tallied 2 1 QUALIFIED 6 4;
        tallied 3 1 QUALIFIED 3 0; tallied 4 1 PENDING 9 0;
        tallied 5 2 QUALIFIED 9 0]
       (map (fun i => mkUserVote (Z.of_nat i) 1 (JS.Num 1)) (seq 20 10)
        ++ [mkUserVote 20 2 (JS.Num 0)]).

(** Every tally with at most 30 votes. *)
Definition small_tallies : list Submission :=
  flat_map (fun t => map (fun u => tallied 1 1 QUALIFIED
                                     (Z.of_nat u) (Z.of_nat (t - u)))
                         (seq 0 (S t)))
           (seq 0 31).

(** * The other handlers of the server *)

(** ** GET /api/submission/status/:userId *)

Record StatusResponse : Type := mkStatusResponse {
  status_success : bool;
  status_submission : option Submission;
  status_votesCompleted : Z
}.

Section Status.

(** The [created_at] column of a submission, which the upload sets and no
    handler writes again, as a function of the row id. *)
Variable created_at : Z -> Z.

(** [ORDER BY created_at DESC]. *)
Definition newest_leb (a b : Submission) : bool :=
  created_at (id b) <=? created_at (id a).

Definition getSubmissionStatus (userId : Z) (db : DB) : StatusResponse :=
  match limit 1 (order_by newest_leb
                   (select_where (owned_by userId) (submissions db))) with
  | [] => mkStatusResponse true None 0
  | submission :: _ =>
      (* Get vote count *)
      let votesCompleted := count_votes userId (user_votes db) in
      mkStatusResponse true (Some submission) votesCompleted
  end.

End Status.

(** ** GET /api/weekly-winners *)

(** [WHERE s.is_winner = true ORDER BY s.week_number DESC]. *)
Definition week_desc_leb (a b : Submission) : bool :=
  week_number b <=? week_number a.

Definition getWeeklyWinners (db : DB) : list Submission :=
  order_by week_desc_leb (select_where is_winner (submissions db)).

(** ** GET /api/competition-stats *)

Record StatsResponse : Type := mkStatsResponse {
  currentWeek : Z;
  totalSubmissions : Z;
  weeklySubmissions : Z;
  totalWinners : Z;
  qualifiedEntries : Z;
  competitionStatus : string
}.

(** [SELECT COUNT( * ) FROM submissions WHERE p]. *)
Definition count_where (p : Submission -> bool) (tbl : list Submission) : Z :=
  Z.of_nat (List.length (select_where p tbl)).

Definition getCompetitionStats (now : Z) (db : DB) : StatsResponse :=
  let currentWeek := getCurrentWeek now in
  mkStatsResponse
    currentWeek
    (count_where (fun _ => true) (submissions db))
    (count_where (fun r => week_number r =? currentWeek) (submissions db))
    (count_where is_winner (submissions db))
    (count_where (fun r => (status r =? QUALIFIED)%string) (submissions db))
    (if currentWeek =? 0 then "Not Started"%string
     else if currentWeek =? 11 then "Ended"%string
     else "Active"%string).

(** ** The ledger key *)

Definition vote_key (v : UserVote) : Z * Z := (voter_id v, submission_id v).

(** What every handler keeps of a row: its id, owner and week; a winner
    stays a winner; the counters of exposure and of received votes do
    not go down. *)
Definition row_kept (r r' : Submission) : Prop :=
  id r' = id r
  /\ user_id r' = user_id r
  /\ week_number r' = week_number r
  /\ (is_winner r = true -> is_winner r' = true)
  /\ times_shown r <= times_shown r'
  /\ thumbs_up r <= thumbs_up r'
  /\ thumbs_down r <= thumbs_down r'
  /\ total_votes r <= total_votes r'.

(** A table grows: the rows it had are kept, in place, and rows may be
    added after them. *)
Definition table_grows (tbl tbl' : list Submission) : Prop :=
  exists kept added, tbl' = kept ++ added /\ Forall2 row_kept tbl kept.

(** Submission 3 is QUALIFIED with 3 of 3 votes up in week 1, as in
    [winners_db]; the administrator selects it. *)
Definition after_selection : DB := fst (selectWinner true 3 winners_db).

(** The statuses the handlers write, and what goes with each. *)
Definition status_consistent (r : Submission) : Prop :=
  (status r = PENDING /\ qualified_at r = None /\ is_winner r = false)
  \/ (status r = QUALIFIED /\ qualified_at r <> None)
  \/ (status r = "winner"%string /\ is_winner r = true).

(** What a vote call [c] leaves of a row [r], now [r']. *)
Definition vote_frame (c : VoteCall) (r r' : Submission) : Prop :=
  id r' = id r
  /\ user_id r' = user_id r
  /\ week_number r' = week_number r
  /\ times_shown r' = times_shown r
  /\ is_winner r' = is_winner r
  /\ (id r <> submissionId c -> tallies r' = tallies r)
  /\ (user_id r <> voterId c -> tracked r' = tracked r).

Definition unknown_call : VoteCall := mkVoteCall during_week_1 9 999 (JS.Num 1).

(** Creation times for the sample stores: the row id itself. *)
Definition created_by_id : Z -> Z := fun i => i.

(** A row's qualification is backed by the ledger [votes]: a QUALIFIED
    row has an owner with 25 votes or more, and votes_completed never
    exceeds the owner's votes. *)
Definition earned (votes : list UserVote) (r : Submission) : Prop :=
  (status r = QUALIFIED -> 25 <= count_votes (user_id r) votes)
  /\ 0 <= votes_completed r <= count_votes (user_id r) votes.

(** * Strings, the prompt services and the token check *)

(** ** JavaScript strings

    A string is the list of its UTF-16 code units, here the code units
    below 256. *)

Module JSString.

Import Ascii.
Open Scope nat_scope.

Definition space : ascii := " "%char.

(** [toLowerCase] on one code unit below 256: A-Z, and the Latin-1
    capitals U+00C0 to U+00DE but the multiplication sign U+00D7, move up
    by 32. *)
Definition lower_char (c : ascii) : ascii :=
  let n := nat_of_ascii c in
  if ((65 <=? n) && (n <=? 90))
     || ((192 <=? n) && (n <=? 222) && negb (n =? 215))
  then ascii_of_nat (n + 32)
  else c.

Fixpoint toLowerCase (s : string) : string :=
  match s with
  | EmptyString => EmptyString
  | String c s' => String (lower_char c) (toLowerCase s')
  end.

(** [s.includes(needle)]. *)
Fixpoint includes (s needle : string) : bool :=
  String.prefix needle s
  || match s with
     | EmptyString => false
     | String _ s' => includes s' needle
     end.

(** [s.split(sep)] for a separator of one code unit. *)
Fixpoint split (sep : ascii) (s : string) : list string :=
  match s with
  | EmptyString => [EmptyString]
  | String c s' =>
      if Ascii.eqb c sep then EmptyString :: split sep s'
      else match split sep s' with
           | [] => [String c EmptyString]
           | w :: ws => String c w :: ws
           end
  end.

Fixpoint has_char (c : ascii) (s : string) : bool :=
  match s with
  | EmptyString => false
  | String d s' => Ascii.eqb d c || has_char c s'
  end.

Close Scope nat_scope.

End JSString.

(** [!v] is false: the value is truthy. *)
Definition truthy (v : JS.value) : bool :=
  match v with
  | JS.Undefined | JS.Null => false
  | JS.Bool b => b
  | JS.Num n => negb (n =? 0)
  | JS.Str s => negb (s =? EmptyString)%string
  end.

(** ** aiPromptService: ruleBasedFallback and parsePromptToActions *)

Inductive Action : Type :=
| MATERIAL_EDIT (target color : string) (roughness metalness : Q)
| SWAP_PRESET (preset : string)
| ADD_UNDERGLOW (color : string) (intensity : Q)
| SET_SUSPENSION (lift : Q).

Section PromptActions.

Local Open Scope string_scope.

Definition matte_body : Action := MATERIAL_EDIT "body" "#111111" (9 # 10) (1 # 10).
Definition dark_roof : Action := MATERIAL_EDIT "roof" "#111111" (8 # 10) (2 # 10).
Definition sport_rims : Action := SWAP_PRESET "sport_rims".
Definition offroad_rims : Action := SWAP_PRESET "offroad_rims".
Definition underglow : Action := ADD_UNDERGLOW "#00ffff" (22 # 10).
Definition lifted : Action := SET_SUSPENSION (15 # 100).
Definition dark_window : Action := MATERIAL_EDIT "window" "#111111" (2 # 10) 0.
Definition default_action : Action :=
  MATERIAL_EDIT "body" "#ffcc00" (35 # 100) (7 # 10).

(** [if (cond) actions.push(a)]. *)
Definition push_if (cond : bool) (a : Action) : list Action :=
  if cond then [a] else [].

Definition ruleBasedFallback (prompt : string) : list Action :=
  let p := JSString.toLowerCase prompt in
  let has := JSString.includes p in
  let actions :=
   (push_if (has "matte" && has "black") matte_body
    ++ push_if (has "roof") dark_roof
    ++ push_if (has "sport rim" || has "sport wheel") sport_rims
    ++ push_if (has "offroad") offroad_rims
    ++ push_if (has "underglow" || has "neon") underglow
    ++ push_if (has "lift") lifted
    ++ push_if (has "window" && (has "dark" || has "tint")) dark_window)%list
  in
  match actions with
  | [] => [default_action]
  | _ :: _ => actions
  end.

End PromptActions.

Inductive InterpretResponse : Type :=
| InterpretOk (actions : list Action)
| InterpretBadRequest       (* 400, 'Prompt is required.' *)
| InterpretFailed.          (* 500 *)

Section Interpret.

(** [process.env.OPENAI_API_KEY], and the branch of parsePromptToActions
    that asks the model: the actions it yields, or [None] when it throws. *)
Variable OPENAI_API_KEY : option string.
Variable ask_model : string -> option (list Action).

Definition has_api_key : bool :=
  match OPENAI_API_KEY with
  | None => false
  | Some k => negb (k =? EmptyString)%string
  end.

Definition parsePromptToActions (prompt : string) : option (list Action) :=
  if negb has_api_key then Some (ruleBasedFallback prompt)
  else ask_model prompt.

(** POST /api/ai/interpret. *)
Definition interpret (prompt : JS.value) : InterpretResponse :=
  match prompt with
  | JS.Str s =>
      if negb (truthy prompt) then InterpretBadRequest
      else match parsePromptToActions s with
           | Some actions => InterpretOk actions
           | None => InterpretFailed
           end
  | _ => InterpretBadRequest   (* !prompt || typeof prompt !== "string" *)
  end.

End Interpret.

(** ** partBuilderService: the meshes generatePartGLB puts in the scene *)

Inductive Mesh : Type :=
| ExhaustPipe      (* CylinderGeometry(0.1, 0.12, 0.5, 24) *)
| RimTorus         (* TorusGeometry(0.3, 0.05, 16, 48) *)
| RimHub           (* CylinderGeometry(0.08, 0.08, 0.2, 16) *)
| FallbackCube.    (* BoxGeometry(0.4, 0.4, 0.4) *)

Definition part_meshes (prompt : string) : list Mesh :=
  let lower := JSString.toLowerCase prompt in
  if JSString.includes lower "exhaust"%string then [ExhaustPipe]
  else if JSString.includes lower "rim"%string
          || JSString.includes lower "wheel"%string
  then [RimTorus; RimHub]
  else [FallbackCube].

(** ** authenticateToken *)

Inductive AuthResult (User : Type) : Type :=
| AuthNext (user : User)   (* req.user = user; next() *)
| AuthNoToken              (* 401 *)
| AuthInvalid.             (* 403 *)

Arguments AuthNext {User} user.
Arguments AuthNoToken {User}.
Arguments AuthInvalid {User}.

Section Auth.

Context {User : Type}.

(** [jwt.verify(token, secret, cb)]: the user of a valid token. *)
Variable verify : string -> option User.

(** [authHeader && authHeader.split(' ')[1]]. *)
Definition header_token (authHeader : option string) : option string :=
  match authHeader with
  | None => None
  | Some h =>
      if (h =? EmptyString)%string then None
      else nth_error (JSString.split JSString.space h) 1
  end.

Definition authenticateToken (authHeader : option string) : AuthResult User :=
  match header_token authHeader with
  | None => AuthNoToken
  | Some token =>
      if (token =? EmptyString)%string then AuthNoToken
      else match verify token with
           | None => AuthInvalid
           | Some user => AuthNext user
           end
  end.

End Auth.

(** The rules of ruleBasedFallback, each with its condition on the
    lowered prompt, in the order of the [push] calls. *)
Definition fallback_flags (prompt : string) : list (bool * Action) :=
  let has := JSString.includes (JSString.toLowerCase prompt) in
  [ (has "matte"%string && has "black"%string, matte_body);
    (has "roof"%string, dark_roof);
    (has "sport rim"%string || has "sport wheel"%string, sport_rims);
    (has "offroad"%string, offroad_rims);
    (has "underglow"%string || has "neon"%string, underglow);
    (has "lift"%string, lifted);
    (has "window"%string && (has "dark"%string || has "tint"%string),
     dark_window) ].

Definition pushed (flags : list (bool * Action)) : list Action :=
  flat_map (fun ba => push_if (fst ba) (snd ba)) flags.

(** The rules with a single keyword. *)
Definition keyword_rules : list (string * Action) :=
  [ ("roof"%string, dark_roof);
    ("sport rim"%string, sport_rims);
    ("sport wheel"%string, sport_rims);
    ("offroad"%string, offroad_rims);
    ("underglow"%string, underglow);
    ("neon"%string, underglow);
    ("lift"%string, lifted) ].

Definition rule_actions : list Action :=
  [matte_body; dark_roof; sport_rims; offroad_rims; underglow; lifted;
   dark_window].

(** ** The anonymous id of an upload *)

Module JSNumber.

Import Ascii.

Definition digit_char (d : Z) : ascii := ascii_of_nat (48 + Z.to_nat d).

(** The decimal digits of a natural number, most significant first;
    [fuel] bounds the number of digits. *)
Fixpoint digits (fuel : nat) (n : Z) : string :=
  match fuel with
  | O => EmptyString
  | S fuel' =>
      if n <? 10 then String (digit_char n) EmptyString
      else (digits fuel' (n / 10)
            ++ String (digit_char (n mod 10)) EmptyString)%string
  end.

(** [n.toString()] for an integer [n >= 0]; a number has at most
    [log2 n + 1] decimal digits. *)
Definition toString (n : Z) : string :=
  digits (S (Z.to_nat (Z.log2 n))) n.

(** The last five decimal digits of [n], with leading zeros. *)
Definition last5 (n : Z) : string :=
  String (digit_char (n / 10000 mod 10))
    (String (digit_char (n / 1000 mod 10))
       (String (digit_char (n / 100 mod 10))
          (String (digit_char (n / 10 mod 10))
             (String (digit_char (n mod 10)) EmptyString)))).

End JSNumber.

(** [s.slice(-k)]: the last [k] code units, or all of [s]. *)
Definition slice_last (k : nat) (s : string) : string :=
  String.substring (String.length s - k) k s.

(** ['ENTRY_' + Date.now().toString().slice(-5)]. *)
Definition anonymousId (now : Z) : string :=
  ("ENTRY_" ++ slice_last 5 (JSNumber.toString now))%string.

(** User 7 uploads in week 1 and then votes on 25 ids. *)
Definition earning_trace : list Request :=
  ReqUpload during_week_1 7 true :: map ReqVote (votes_on 7 100 25).

(** * Properties *)

(** ** Competition clock *)

Lemma week_index (now : Z) :
  js_floor_div (js_floor_div (now - startDate) ms_per_day) 7
  = (now - startDate) / ms_per_week.
Proof.
  unfold js_floor_div, ms_per_week.
  rewrite Z.mul_comm.
  apply Z.div_div; [discriminate | reflexivity].
Qed.

Lemma getCurrentWeek_eq (now : Z) :
  getCurrentWeek now =
  let w := (now - startDate) / ms_per_week + 1 in
  if w <? 1 then 0 else if w >? 10 then 11 else w.
Proof. unfold getCurrentWeek. cbv zeta. rewrite week_index. reflexivity. Qed.

Lemma week_before (now : Z) : now < startDate -> getCurrentWeek now = 0.
Proof.
  intros H. rewrite getCurrentWeek_eq. cbv zeta.
  assert ((now - startDate) / ms_per_week < 0).
  { apply Z.div_lt_upper_bound; [reflexivity | lia]. }
  destruct (Z.ltb_spec ((now - startDate) / ms_per_week + 1) 1); lia.
Qed.

Lemma week_bucket (now k : Z) :
  1 <= k <= 10 ->
  startDate + (k - 1) * ms_per_week <= now < startDate + k * ms_per_week ->
  getCurrentWeek now = k.
Proof.
  intros Hk [Hlo Hhi]. rewrite getCurrentWeek_eq. cbv zeta.
  assert ((now - startDate) / ms_per_week = k - 1) as ->.
  { symmetry. apply (Z.div_unique_pos _ _ _ (now - startDate - (k - 1) * ms_per_week)).
    - unfold ms_per_week, ms_per_day in *. lia.
    - lia. }
  replace (k - 1 + 1) with k by lia.
  destruct (Z.ltb_spec k 1); [lia |].
  destruct (Z.gtb_spec k 10); [lia |]. reflexivity.
Qed.

Lemma week_after (now : Z) :
  startDate + 10 * ms_per_week <= now -> getCurrentWeek now = 11.
Proof.
  intros H. rewrite getCurrentWeek_eq. cbv zeta.
  assert (10 <= (now - startDate) / ms_per_week).
  { apply Z.div_le_lower_bound; [reflexivity | lia]. }
  destruct (Z.ltb_spec ((now - startDate) / ms_per_week + 1) 1); [lia |].
  destruct (Z.gtb_spec ((now - startDate) / ms_per_week + 1) 10); [reflexivity | lia].
Qed.

(** C8. getCurrentWeek depends on the current time alone (the start date
    is a constant): it is 0 before the start date, k during the k-th
    7-day bucket from the start for 1 <= k <= 10, and 11 from day 70 on;
    it is 1 at the start date itself, 0 one day before, 11 at day 70. *)
Theorem getCurrentWeek_spec (now : Z) :
  (now < startDate -> getCurrentWeek now = 0)
  /\ (forall k, 1 <= k <= 10 ->
        startDate + (k - 1) * (7 * ms_per_day) <= now
          < startDate + k * (7 * ms_per_day) ->
        getCurrentWeek now = k)
  /\ (startDate + 70 * ms_per_day <= now -> getCurrentWeek now = 11)
  /\ getCurrentWeek startDate = 1
  /\ getCurrentWeek (startDate - ms_per_day) = 0
  /\ getCurrentWeek (startDate + 70 * ms_per_day) = 11.
Proof.
  split; [apply week_before |].
  split; [intros k; apply week_bucket |].
  split.
  - intros H. apply week_after. unfold ms_per_week. lia.
  - repeat split; reflexivity.
Qed.

Lemma getCurrentWeek_spec_witness :
  getCurrentWeek (startDate + 8 * ms_per_day) = 2
  /\ getCurrentWeek (startDate - 1) = 0
  /\ getCurrentWeek (startDate + 500 * ms_per_day) = 11.
Proof.
  pose proof (getCurrentWeek_spec (startDate + 8 * ms_per_day)) as [_ [H2 _]].
  pose proof (getCurrentWeek_spec (startDate - 1)) as [H0 _].
  pose proof (getCurrentWeek_spec (startDate + 500 * ms_per_day)) as [_ [_ [H11 _]]].
  split; [apply (H2 2); vm_compute; repeat split; discriminate |].
  split; [apply H0; vm_compute; reflexivity |].
  apply H11; vm_compute; discriminate.
Defined.

(** ** Tables *)

Lemma update_where_length p f tbl :
  List.length (update_where p f tbl) = List.length tbl.
Proof. apply length_map. Qed.

Lemma update_where_proj {B : Type} (g : Submission -> B) p f tbl :
  (forall r, g (f r) = g r) ->
  map g (update_where p f tbl) = map g tbl.
Proof.
  intros Hf. unfold update_where. rewrite map_map. apply map_ext.
  intros r. destruct (p r); auto.
Qed.

Lemma update_where_Forall (P : Submission -> Prop) p f tbl :
  (forall r, P r -> P (f r)) ->
  Forall P tbl -> Forall P (update_where p f tbl).
Proof.
  intros Hf H. unfold update_where. apply Forall_map.
  eapply Forall_impl; [| exact H]. intros r Hr. simpl. destruct (p r); auto.
Qed.

Lemma update_where_In p f tbl r' :
  In r' (update_where p f tbl) <->
  exists r, In r tbl /\ r' = (if p r then f r else r).
Proof.
  unfold update_where. rewrite in_map_iff. split; intros [r [H1 H2]]; eauto.
Qed.

Lemma update_where_twice p f g tbl :
  (forall r, p (g r) = p r) ->
  update_where p f (update_where p g tbl)
  = update_where p (fun r => f (g r)) tbl.
Proof.
  intros Hg. unfold update_where. rewrite map_map. apply map_ext.
  intros r. destruct (p r) eqn:E; [rewrite Hg, E | rewrite E]; reflexivity.
Qed.

Lemma select_update_where p q f tbl :
  (forall r, p (f r) = p r) ->
  select_where p (update_where q f tbl)
  = map (fun r => if q r then f r else r) (select_where p tbl).
Proof.
  intros Hf. unfold select_where, update_where.
  induction tbl as [| r tbl IH]; simpl; [reflexivity |].
  assert (p (if q r then f r else r) = p r) as ->.
  { destruct (q r); auto. }
  destruct (p r); simpl; rewrite IH; reflexivity.
Qed.

(** ** The vote ledger *)

Lemma insert_vote_dup v votes :
  existsb (same_key v) votes = true -> insert_vote v votes = votes.
Proof. unfold insert_vote. intros ->. reflexivity. Qed.

Lemma insert_vote_new v votes :
  existsb (same_key v) votes = false -> insert_vote v votes = votes ++ [v].
Proof. unfold insert_vote. intros ->. reflexivity. Qed.

Lemma insert_vote_has_key v votes :
  existsb (same_key v) (insert_vote v votes) = true.
Proof.
  unfold insert_vote. destruct (existsb (same_key v) votes) eqn:E; [exact E |].
  rewrite existsb_app. simpl. unfold same_key at 2.
  rewrite !Z.eqb_refl. simpl. apply orb_true_r.
Qed.

Lemma count_votes_insert u v votes :
  count_votes u (insert_vote v votes)
  = count_votes u votes
    + (if negb (existsb (same_key v) votes) && (voter_id v =? u)
       then 1 else 0).
Proof.
  unfold insert_vote, count_votes.
  destruct (existsb (same_key v) votes); simpl; [lia |].
  rewrite filter_app, length_app. simpl.
  destruct (voter_id v =? u); simpl; lia.
Qed.

Lemma count_votes_nonneg u votes : 0 <= count_votes u votes.
Proof. unfold count_votes. lia. Qed.

(** ** POST /api/vote: the shape of a call's outcome *)

Section VoteFacts.

Variable insert_ok : DB -> UserVote -> bool.

Lemma castVote_rejected c db :
  insert_ok db (vote_row c) = false ->
  castVote insert_ok c db = (db, VoteFailed).
Proof. unfold castVote. intros ->. reflexivity. Qed.

Lemma count_vote_user_id c r : user_id (count_vote c r) = user_id r.
Proof. unfold count_vote. destruct (JS.strict_eq_num _ _); reflexivity. Qed.

Lemma count_vote_status c r : status (count_vote c r) = status r.
Proof. unfold count_vote. destruct (JS.strict_eq_num _ _); reflexivity. Qed.

Lemma castVote_accepted c db :
  insert_ok db (vote_row c) = true ->
  let votes := insert_vote (vote_row c) (user_votes db) in
  let n := count_votes (voterId c) votes in
  castVote insert_ok c db =
  match select_where (owned_by (voterId c)) (submissions db) with
  | [] => (mkDB (counted c (submissions db)) votes, VoteOk 0 25 false)
  | first :: _ =>
      if (n >=? 25) && (status first =? PENDING)%string
      then (mkDB (update_where (owned_by (voterId c))
                    (fun r => set_qualified (call_now c)
                                (set_votes_completed n r))
                    (counted c (submissions db))) votes,
            VoteOk n 25 true)
      else (mkDB (update_where (owned_by (voterId c))
                    (set_votes_completed n)
                    (counted c (submissions db))) votes,
            VoteOk n 25 false)
  end.
Proof.
  intros Hok. cbv zeta. unfold castVote. rewrite Hok. cbv zeta. simpl negb. cbv iota.
  assert (Hsubs :
    (if JS.strict_eq_num (voteValue c) 1
     then update_where (has_id (submissionId c)) add_thumbs_up (submissions db)
     else update_where (has_id (submissionId c)) add_thumbs_down (submissions db))
    = counted c (submissions db)).
  { unfold counted, count_vote. destruct (JS.strict_eq_num _ _); reflexivity. }
  rewrite Hsubs. unfold counted at 1.
  rewrite select_update_where
    by (intros r; unfold owned_by; rewrite count_vote_user_id; reflexivity).
  destruct (select_where (owned_by (voterId c)) (submissions db)) as [| first rest];
    simpl map; cbv iota; [reflexivity |].
  assert (status (if has_id (submissionId c) first then count_vote c first else first)
          = status first) as ->.
  { destruct (has_id _ _); [apply count_vote_status | reflexivity]. }
  rewrite update_where_twice by reflexivity.
  reflexivity.
Qed.

End VoteFacts.

(** ** The tally invariant *)

Section Tally.

Variable insert_ok : DB -> UserVote -> bool.

Lemma count_vote_tally c r : tally_ok r -> tally_ok (count_vote c r).
Proof.
  unfold tally_ok, count_vote.
  destruct (JS.strict_eq_num _ _); simpl; lia.
Qed.

Lemma castVote_tally c db :
  Forall tally_ok (submissions db) ->
  Forall tally_ok (submissions (fst (castVote insert_ok c db))).
Proof.
  intros H. destruct (insert_ok db (vote_row c)) eqn:Hok.
  - rewrite (castVote_accepted _ _ _ Hok). cbv zeta.
    assert (Hc : Forall tally_ok (counted c (submissions db))).
    { apply update_where_Forall; [apply count_vote_tally | exact H]. }
    destruct (select_where _ _); [exact Hc |].
    destruct (_ && _); simpl; apply update_where_Forall; auto.
  - rewrite (castVote_rejected _ _ _ Hok). exact H.
Qed.

Lemma mark_shown_Forall (P : Submission -> Prop) es tbl :
  (forall r, P r -> P (add_times_shown r)) ->
  Forall P tbl -> Forall P (mark_shown es tbl).
Proof.
  intros Hf. unfold mark_shown. revert tbl.
  induction es as [| e es IH]; intros tbl H; simpl; [exact H |].
  apply IH. apply update_where_Forall; assumption.
Qed.

Lemma getVotingBatch_tally rnd rnd' u db :
  Forall tally_ok (submissions db) ->
  Forall tally_ok (submissions (fst (getVotingBatch rnd rnd' u db))).
Proof.
  intros H. unfold getVotingBatch.
  destruct (_ =? _)%nat; simpl; apply mark_shown_Forall; auto.
Qed.

Lemma uploadPart_tally now u ok db :
  Forall tally_ok (submissions db) ->
  Forall tally_ok (submissions (fst (uploadPart now u ok db))).
Proof.
  intros H. unfold uploadPart.
  destruct (negb ok); [exact H |].
  destruct (_ =? 0); [exact H |].
  destruct (_ =? 11); [exact H |].
  simpl. apply Forall_app. split; [exact H |].
  constructor; [reflexivity | constructor].
Qed.

Lemma selectWinner_tally a sid db :
  Forall tally_ok (submissions db) ->
  Forall tally_ok (submissions (fst (selectWinner a sid db))).
Proof.
  intros H. unfold selectWinner.
  destruct (negb a); [exact H |].
  destruct (select_where _ _); [exact H |].
  simpl. apply update_where_Forall; auto.
Qed.

Lemma handle_tally q db :
  Forall tally_ok (submissions db) ->
  Forall tally_ok (submissions (handle insert_ok q db)).
Proof.
  destruct q; simpl.
  - apply uploadPart_tally.
  - apply getVotingBatch_tally.
  - apply castVote_tally.
  - auto.
  - apply selectWinner_tally.
Qed.

End Tally.

(** C5. total_votes = thumbs_up + thumbs_down holds for every submission
    after any sequence of requests (votes, and also uploads, batch
    fetches, winner queries and winner selections), from any store in
    which it holds; a submission is created with all counters zero, so it
    holds from the empty store on. *)
Theorem tally_invariant (insert_ok : DB -> UserVote -> bool)
    (qs : list Request) (db : DB) :
  Forall tally_ok (submissions db) ->
  Forall tally_ok (submissions (serve insert_ok qs db))
  /\ (forall tbl u w, tallies (new_submission tbl u w) = (0, 0, 0)).
Proof.
  intros H. split; [| reflexivity].
  unfold serve. revert db H.
  induction qs as [| q qs IH]; intros db H; simpl; [exact H |].
  apply IH. apply handle_tally. exact H.
Qed.

Lemma tally_invariant_witness :
  Forall tally_ok (submissions (serve accept_all sample_trace empty_db))
  /\ map tallies (submissions (serve accept_all sample_trace empty_db))
     = [(2, 1, 3)].
Proof.
  split.
  - apply (tally_invariant accept_all sample_trace empty_db). constructor.
  - vm_compute. reflexivity.
Defined.

(** ** POST /api/vote: what a call writes *)

Section VoteWrites.

Variable insert_ok : DB -> UserVote -> bool.

Lemma castVote_success c db :
  insert_ok db (vote_row c) = true ->
  vote_success (snd (castVote insert_ok c db)) = true.
Proof.
  intros Hok. rewrite (castVote_accepted _ _ _ Hok). cbv zeta.
  destruct (select_where _ _); [reflexivity |].
  destruct (_ && _); reflexivity.
Qed.

Lemma castVote_votes c db :
  insert_ok db (vote_row c) = true ->
  user_votes (fst (castVote insert_ok c db))
  = insert_vote (vote_row c) (user_votes db).
Proof.
  intros Hok. rewrite (castVote_accepted _ _ _ Hok). cbv zeta.
  destruct (select_where _ _); [reflexivity |].
  destruct (_ && _); reflexivity.
Qed.

(** A column the qualification tracker does not write is, after the
    call, what the tally update left. *)
Lemma castVote_proj {B : Type} (g : Submission -> B) c db :
  (forall n r, g (set_votes_completed n r) = g r) ->
  (forall t r, g (set_qualified t r) = g r) ->
  insert_ok db (vote_row c) = true ->
  map g (submissions (fst (castVote insert_ok c db)))
  = map g (counted c (submissions db)).
Proof.
  intros Hv Hq Hok. rewrite (castVote_accepted _ _ _ Hok). cbv zeta.
  destruct (select_where _ _); [reflexivity |].
  destruct (_ && _); simpl; apply update_where_proj; intros r;
    rewrite ?Hq, ?Hv; reflexivity.
Qed.

Lemma castVote_ids c db :
  map id (submissions (fst (castVote insert_ok c db)))
  = map id (submissions db).
Proof.
  destruct (insert_ok db (vote_row c)) eqn:Hok.
  - rewrite castVote_proj by auto. apply update_where_proj.
    intros r. unfold count_vote. destruct (JS.strict_eq_num _ _); reflexivity.
  - rewrite castVote_rejected by exact Hok. reflexivity.
Qed.

Lemma castVote_user_ids c db :
  map user_id (submissions (fst (castVote insert_ok c db)))
  = map user_id (submissions db).
Proof.
  destruct (insert_ok db (vote_row c)) eqn:Hok.
  - rewrite castVote_proj by auto. apply update_where_proj.
    intros r. apply count_vote_user_id.
  - rewrite castVote_rejected by exact Hok. reflexivity.
Qed.

Lemma castVote_tallies c db :
  insert_ok db (vote_row c) = true ->
  map tallies (submissions (fst (castVote insert_ok c db)))
  = map (fun r => if has_id (submissionId c) r
                  then tallies (count_vote c r) else tallies r)
        (submissions db).
Proof.
  intros Hok. rewrite castVote_proj by auto.
  unfold counted, update_where. rewrite map_map. apply map_ext.
  intros r. destruct (has_id _ _); reflexivity.
Qed.

End VoteWrites.

(** C9. A vote value other than the number 1 (a string, null, a missing
    field, another number) is not validated: whenever the store takes the
    row, the call reports success, the ledger holds a row for the pair
    (the row of this call, with its value as sent, when the pair is new)
    and the submission's thumbs_down and total_votes go up by one while
    thumbs_up stays. *)
Theorem vote_value_not_validated (insert_ok : DB -> UserVote -> bool)
    (c : VoteCall) (db : DB) :
  JS.strict_eq_num (voteValue c) 1 = false ->
  insert_ok db (vote_row c) = true ->
  let out := castVote insert_ok c db in
  vote_success (snd out) = true
  /\ existsb (same_key (vote_row c)) (user_votes (fst out)) = true
  /\ (existsb (same_key (vote_row c)) (user_votes db) = false ->
      user_votes (fst out) = user_votes db ++ [vote_row c])
  /\ map id (submissions (fst out)) = map id (submissions db)
  /\ map tallies (submissions (fst out))
     = map (fun r => if id r =? submissionId c
                     then (thumbs_up r, thumbs_down r + 1, total_votes r + 1)
                     else tallies r)
           (submissions db).
Proof.
  intros Hv Hok. cbv zeta.
  split; [apply castVote_success; exact Hok |].
  rewrite castVote_votes by exact Hok.
  split; [apply insert_vote_has_key |].
  split; [apply insert_vote_new |].
  split; [apply castVote_ids |].
  rewrite castVote_tallies by exact Hok.
  apply map_ext. intros r. unfold has_id, count_vote. rewrite Hv.
  reflexivity.
Qed.

Lemma vote_value_not_validated_witness :
  map tallies (submissions (fst (castVote accept_all malformed_call dup_db)))
    = [(0, 1, 1)]
  /\ user_votes (fst (castVote accept_all missing_call dup_db))
    = [mkUserVote 3 1 JS.Undefined]
  /\ vote_success (snd (castVote accept_all missing_call dup_db)) = true.
Proof.
  pose proof (vote_value_not_validated accept_all malformed_call dup_db
                eq_refl eq_refl) as [_ [_ [_ [_ Ht]]]].
  pose proof (vote_value_not_validated accept_all missing_call dup_db
                eq_refl eq_refl) as [Hs [_ [Hv _]]].
  split; [rewrite Ht; reflexivity |].
  split; [rewrite Hv; reflexivity | exact Hs].
Defined.




(** C2 at the failing input: voter 3 votes twice on submission 1 (owned
    by user 2). The second call leaves the ledger as it is and reports
    success, and it moves the tallies again, with the same value and with
    another one. *)
Theorem duplicate_vote_counted_again :
  let s1 := fst (castVote accept_all dup_call dup_db) in
  user_votes s1 = [mkUserVote 3 1 (JS.Num 1)]
  /\ map tallies (submissions s1) = [(1, 0, 1)]
  /\ user_votes (fst (castVote accept_all dup_call s1)) = user_votes s1
  /\ vote_success (snd (castVote accept_all dup_call s1)) = true
  /\ map tallies (submissions (fst (castVote accept_all dup_call s1)))
     = [(2, 0, 2)]
  /\ user_votes (fst (castVote accept_all dup_call' s1)) = user_votes s1
  /\ vote_success (snd (castVote accept_all dup_call' s1)) = true
  /\ map tallies (submissions (fst (castVote accept_all dup_call' s1)))
     = [(1, 1, 2)].
Proof. cbv zeta. repeat split; reflexivity. Qed.

(** The same in general: a repeated (voter, submission) pair leaves the
    ledger unchanged and is counted all the same. *)
Lemma duplicate_vote_general (insert_ok : DB -> UserVote -> bool) c db :
  insert_ok db (vote_row c) = true ->
  existsb (same_key (vote_row c)) (user_votes db) = true ->
  user_votes (fst (castVote insert_ok c db)) = user_votes db
  /\ vote_success (snd (castVote insert_ok c db)) = true
  /\ map tallies (submissions (fst (castVote insert_ok c db)))
     = map (fun r => if has_id (submissionId c) r
                     then tallies (count_vote c r) else tallies r)
           (submissions db).
Proof.
  intros Hok Hdup.
  rewrite castVote_votes, castVote_tallies by exact Hok.
  rewrite insert_vote_dup by exact Hdup.
  split; [reflexivity |].
  split; [apply castVote_success; exact Hok | reflexivity].
Qed.

(** ** The qualification tracker *)

Lemma select_update_same p f tbl :
  (forall r, p (f r) = p r) ->
  select_where p (update_where p f tbl) = map f (select_where p tbl).
Proof.
  intros Hf. rewrite select_update_where by exact Hf.
  apply map_ext_in. intros r Hr.
  apply filter_In in Hr. destruct Hr as [_ ->]. reflexivity.
Qed.

Lemma select_update_other p f tbl :
  (forall r, p (f r) = p r) ->
  select_where (fun r => negb (p r)) (update_where p f tbl)
  = select_where (fun r => negb (p r)) tbl.
Proof.
  intros Hf. rewrite select_update_where by (intros r; rewrite Hf; reflexivity).
  rewrite <- (map_id (select_where _ tbl)) at 2.
  apply map_ext_in. intros r Hr.
  apply filter_In in Hr. destruct Hr as [_ Hr].
  destruct (p r); [discriminate | reflexivity].
Qed.

Lemma select_counted u c tbl :
  select_where (owned_by u) (counted c tbl)
  = map (fun r => if has_id (submissionId c) r then count_vote c r else r)
        (select_where (owned_by u) tbl).
Proof.
  unfold counted. apply select_update_where.
  intros r. unfold owned_by. rewrite count_vote_user_id. reflexivity.
Qed.

Lemma count_vote_tracked c r : tracked (count_vote c r) = tracked r.
Proof. unfold count_vote. destruct (JS.strict_eq_num _ _); reflexivity. Qed.

Lemma counted_tracked c tbl : map tracked (counted c tbl) = map tracked tbl.
Proof. apply update_where_proj. apply count_vote_tracked. Qed.

Lemma map_if_has_id_tracked c (l : list Submission) :
  map tracked
    (map (fun r => if has_id (submissionId c) r then count_vote c r else r) l)
  = map tracked l.
Proof.
  rewrite map_map. apply map_ext. intros r.
  destruct (has_id _ _); [apply count_vote_tracked | reflexivity].
Qed.



(** ** Qualification along a run of votes *)

Lemma map_eq_Forall {A B C : Type} (f : A -> C) (g : B -> C)
    (P : C -> Prop) (l : list A) (l0 : list B) :
  map f l = map g l0 ->
  Forall (fun x => P (g x)) l0 -> Forall (fun x => P (f x)) l.
Proof.
  intros Heq H. apply Forall_forall. intros x Hx.
  apply (in_map f) in Hx. rewrite Heq in Hx.
  apply in_map_iff in Hx. destruct Hx as [y [Hy Hin]].
  rewrite <- Hy. rewrite Forall_forall in H. apply H. exact Hin.
Qed.

Section Run.

Variable insert_ok : DB -> UserVote -> bool.

Lemma cast_count_step u c db :
  cast_count u db <= cast_count u (fst (castVote insert_ok c db))
    <= cast_count u db + 1.
Proof.
  unfold cast_count. destruct (insert_ok db (vote_row c)) eqn:Hok.
  - rewrite castVote_votes by exact Hok. rewrite count_votes_insert.
    destruct (_ && _); lia.
  - rewrite castVote_rejected by exact Hok. simpl. lia.
Qed.

Lemma cast_count_other u c db :
  voterId c <> u ->
  cast_count u (fst (castVote insert_ok c db)) = cast_count u db.
Proof.
  intros Hne. unfold cast_count. destruct (insert_ok db (vote_row c)) eqn:Hok.
  - rewrite castVote_votes by exact Hok. rewrite count_votes_insert.
    simpl voter_id. destruct (Z.eqb_spec (voterId c) u); [contradiction |].
    rewrite andb_false_r. lia.
  - rewrite castVote_rejected by exact Hok. reflexivity.
Qed.

Lemma cast_count_run u calls db :
  cast_count u db <= cast_count u (run_votes insert_ok calls db).
Proof.
  unfold run_votes. revert db.
  induction calls as [| c calls IH]; intros db; simpl; [lia |].
  pose proof (cast_count_step u c db). specialize (IH (fst (castVote insert_ok c db))).
  lia.
Qed.

(** The rows of a user other than the voter keep the tracker's columns. *)
Lemma castVote_other_tracked u c db :
  voterId c <> u ->
  map tracked (owned u (fst (castVote insert_ok c db)))
  = map tracked (owned u db).
Proof.
  intros Hne. unfold owned.
  destruct (insert_ok db (vote_row c)) eqn:Hok;
    [| rewrite castVote_rejected by exact Hok; reflexivity].
  assert (Hc : map tracked (select_where (owned_by u) (counted c (submissions db)))
               = map tracked (select_where (owned_by u) (submissions db))).
  { rewrite select_counted. apply map_if_has_id_tracked. }
  assert (Hu : forall f : Submission -> Submission,
             (forall r, user_id (f r) = user_id r) ->
             map tracked (select_where (owned_by u)
                (update_where (owned_by (voterId c)) f (counted c (submissions db))))
             = map tracked (select_where (owned_by u) (submissions db))).
  { intros f Hf. rewrite <- Hc.
    rewrite select_update_where
      by (intros r; unfold owned_by; rewrite Hf; reflexivity).
    f_equal. rewrite <- (map_id (select_where _ _)) at 2.
    apply map_ext_in. intros r Hr. apply filter_In in Hr.
    destruct Hr as [_ Hr]. unfold owned_by in *.
    apply Z.eqb_eq in Hr.
    destruct (Z.eqb_spec (user_id r) (voterId c)); [congruence | reflexivity]. }
  rewrite (castVote_accepted _ _ _ Hok). cbv zeta.
  destruct (select_where (owned_by (voterId c)) _); [exact Hc |].
  destruct (_ && _); cbn [fst submissions]; apply Hu; reflexivity.
Qed.

(** The rows of the voter after a call the store took. *)
Lemma castVote_own_tracked c db first rest :
  insert_ok db (vote_row c) = true ->
  owned (voterId c) db = first :: rest ->
  let out := castVote insert_ok c db in
  let n := cast_count (voterId c) (fst out) in
  if (n >=? 25) && (status first =? PENDING)%string
  then vote_qualified (snd out) = true
       /\ map tracked (owned (voterId c) (fst out))
          = map (fun _ => (n, QUALIFIED, Some (call_now c)))
                (owned (voterId c) db)
  else vote_qualified (snd out) = false
       /\ map tracked (owned (voterId c) (fst out))
          = map (fun r => (n, status r, qualified_at r))
                (owned (voterId c) db).
Proof.
  intros Hok Hsel. cbv zeta. unfold cast_count, owned in *.
  rewrite castVote_votes by exact Hok.
  rewrite (castVote_accepted _ _ _ Hok). cbv zeta. rewrite Hsel.
  set (n := count_votes (voterId c) (insert_vote (vote_row c) (user_votes db))).
  destruct ((n >=? 25) && (status first =? PENDING)%string);
    cbn [fst snd submissions user_votes vote_qualified];
    (split; [reflexivity |]);
    rewrite select_update_same by reflexivity;
    rewrite select_counted, Hsel, !map_map; apply map_ext; intros r;
    destruct (has_id _ _); try reflexivity;
    unfold count_vote; destruct (JS.strict_eq_num _ _); reflexivity.
Qed.

End Run.

Section Phases.

Variable insert_ok : DB -> UserVote -> bool.
Variable v : Z.

Let step (c : VoteCall) (db : DB) := castVote insert_ok c db.

Lemma tracked_nonempty (l l0 : list Submission)
    (g : Submission -> Z * string * option Z) :
  map tracked l = map g l0 -> l0 <> [] -> l <> [].
Proof.
  intros Heq Hne ->. destruct l0; [contradiction | discriminate].
Qed.

(** A call of another voter leaves both phases as they are. *)
Lemma awaiting_other c db :
  voterId c <> v -> awaiting_quota v db -> awaiting_quota v (fst (step c db)).
Proof.
  intros Hne [Hown [Hcnt Hst]]. unfold step.
  pose proof (castVote_other_tracked insert_ok v c db Hne) as Ht.
  split; [eapply tracked_nonempty; eauto |].
  split; [rewrite cast_count_other by exact Hne; exact Hcnt |].
  exact (map_eq_Forall tracked tracked (fun t => snd (fst t) = PENDING) _ _ Ht Hst).
Qed.

Lemma qualified_other t c db :
  voterId c <> v -> qualified_since v t db ->
  qualified_since v t (fst (step c db)).
Proof.
  intros Hne [Hcnt Hst]. unfold step.
  pose proof (castVote_other_tracked insert_ok v c db Hne) as Ht.
  split; [rewrite cast_count_other by exact Hne; exact Hcnt |].
  exact (map_eq_Forall tracked tracked
           (fun x => snd (fst x) = QUALIFIED /\ snd x = Some t) _ _ Ht Hst).
Qed.

(** A call of the submitter while short of the quota. *)
Lemma awaiting_own c db :
  voterId c = v -> awaiting_quota v db ->
  let n := cast_count v (fst (step c db)) in
  (n < 25 /\ vote_qualified (snd (step c db)) = false
   /\ awaiting_quota v (fst (step c db)))
  \/ (cast_count v db = 24 /\ n = 25
      /\ vote_qualified (snd (step c db)) = true
      /\ qualified_since v (call_now c) (fst (step c db))).
Proof.
  intros Hv [Hown [Hcnt Hst]]. cbv zeta. unfold step. subst v.
  pose proof (cast_count_step insert_ok (voterId c) c db) as Hstep.
  destruct (insert_ok db (vote_row c)) eqn:Hok.
  - destruct (owned (voterId c) db) as [| first rest] eqn:Hsel; [contradiction |].
    pose proof (castVote_own_tracked insert_ok c db first rest Hok Hsel) as Ht.
    cbv zeta in Ht.
    assert (Hfirst : (status first =? PENDING)%string = true).
    { apply String.eqb_eq. inversion Hst; assumption. }
    rewrite Hfirst, andb_true_r in Ht. rewrite <- Hsel in Hst.
    destruct (Z.geb_spec (cast_count (voterId c) (fst (castVote insert_ok c db))) 25)
      as [Hn | Hn]; destruct Ht as [Hq Ht].
    + right. split; [lia |]. split; [lia |]. split; [exact Hq |].
      split; [lia |].
      apply (map_eq_Forall tracked _
               (fun x => snd (fst x) = QUALIFIED /\ snd x = Some (call_now c))
               _ _ Ht).
      apply Forall_forall. intros; split; reflexivity.
    + left. split; [exact Hn |]. split; [exact Hq |].
      split; [eapply tracked_nonempty; [exact Ht | rewrite Hsel; discriminate] |].
      split; [exact Hn |].
      exact (map_eq_Forall tracked _ (fun x => snd (fst x) = PENDING) _ _ Ht Hst).
  - rewrite castVote_rejected in * by exact Hok. simpl in *.
    left. split; [exact Hcnt |]. split; [reflexivity |].
    split; [exact Hown |]. split; assumption.
Qed.

(** A call of the submitter once qualified. *)
Lemma qualified_own t c db :
  voterId c = v -> qualified_since v t db ->
  vote_qualified (snd (step c db)) = false
  /\ qualified_since v t (fst (step c db)).
Proof.
  intros Hv [Hcnt Hst]. unfold step. subst v.
  pose proof (cast_count_step insert_ok (voterId c) c db) as Hstep.
  destruct (insert_ok db (vote_row c)) eqn:Hok.
  - destruct (owned (voterId c) db) as [| first rest] eqn:Hsel.
    + unfold owned in Hsel. split; [| split; [lia |]].
      * rewrite (castVote_accepted _ _ _ Hok). cbv zeta. rewrite Hsel.
        reflexivity.
      * unfold owned. rewrite (castVote_accepted _ _ _ Hok). cbv zeta.
        rewrite Hsel. cbn [fst submissions].
        rewrite select_counted, Hsel. constructor.
    + pose proof (castVote_own_tracked insert_ok c db first rest Hok Hsel) as Ht.
      cbv zeta in Ht.
      assert (Hfirst : (status first =? PENDING)%string = false).
      { apply String.eqb_neq. inversion Hst as [| ? ? [H1 _] _]. rewrite H1.
        discriminate. }
      rewrite Hfirst, andb_false_r in Ht. destruct Ht as [Hq Ht].
      rewrite <- Hsel in Hst.
      split; [exact Hq |]. split; [lia |].
      exact (map_eq_Forall tracked _
               (fun x => snd (fst x) = QUALIFIED /\ snd x = Some t) _ _ Ht Hst).
  - rewrite castVote_rejected in * by exact Hok. simpl.
    split; [reflexivity |]. split; assumption.
Qed.

Lemma qualified_step t c db :
  qualified_since v t db -> qualified_since v t (fst (step c db)).
Proof.
  intros H. destruct (Z.eq_dec (voterId c) v) as [He | Hne].
  - apply qualified_own; assumption.
  - apply qualified_other; assumption.
Qed.

Lemma qualified_run t calls db :
  qualified_since v t db -> qualified_since v t (run_votes insert_ok calls db).
Proof.
  unfold run_votes. revert db.
  induction calls as [| c calls IH]; intros db H; simpl; [exact H |].
  apply IH. apply qualified_step. exact H.
Qed.

Lemma awaiting_run calls db :
  awaiting_quota v db ->
  awaiting_quota v (run_votes insert_ok calls db)
  \/ exists t, qualified_since v t (run_votes insert_ok calls db).
Proof.
  unfold run_votes. revert db.
  induction calls as [| c calls IH]; intros db H; simpl; [left; exact H |].
  destruct (Z.eq_dec (voterId c) v) as [He | Hne].
  - destruct (awaiting_own c db He H) as [[_ [_ Ha]] | [_ [_ [_ Hq]]]].
    + apply IH. exact Ha.
    + right. exists (call_now c). apply (qualified_run _ calls _ Hq).
  - apply IH. apply awaiting_other; assumption.
Qed.

End Phases.

(** A run of votes keeps the submissions of every user in place. *)
Lemma owned_ids_of_keys u (l l0 : list Submission) :
  map (fun r => (id r, user_id r)) l = map (fun r => (id r, user_id r)) l0 ->
  map id (select_where (owned_by u) l) = map id (select_where (owned_by u) l0).
Proof.
  revert l0. induction l as [| r l IH]; intros [| r0 l0] H; try discriminate;
    [reflexivity |].
  simpl in H. injection H as Hid Hu Hl. specialize (IH l0 Hl).
  unfold select_where in *. simpl.
  assert (owned_by u r = owned_by u r0) as ->
    by (unfold owned_by; rewrite Hu; reflexivity).
  destruct (owned_by u r0); simpl; [rewrite Hid, IH | rewrite IH]; reflexivity.
Qed.

Lemma castVote_owned_ids insert_ok u c db :
  map id (owned u (fst (castVote insert_ok c db))) = map id (owned u db).
Proof.
  unfold owned. apply owned_ids_of_keys.
  destruct (insert_ok db (vote_row c)) eqn:Hok.
  - rewrite castVote_proj by auto. apply update_where_proj.
    intros r. unfold count_vote. destruct (JS.strict_eq_num _ _); reflexivity.
  - rewrite castVote_rejected by exact Hok. reflexivity.
Qed.

Lemma run_votes_owned_ids insert_ok u calls db :
  map id (owned u (run_votes insert_ok calls db)) = map id (owned u db).
Proof.
  unfold run_votes. revert db.
  induction calls as [| c calls IH]; intros db; simpl; [reflexivity |].
  rewrite IH. apply castVote_owned_ids.
Qed.

Lemma run_votes_app insert_ok l1 l2 db :
  run_votes insert_ok (l1 ++ l2) db
  = run_votes insert_ok l2 (run_votes insert_ok l1 db).
Proof. unfold run_votes. apply fold_left_app. Qed.



(** ** ORDER BY and LIMIT *)

Section OrderByFacts.

Context {A : Type}.
Variable leb : A -> A -> bool.

Lemma insert_row_perm x l : Permutation (insert_row leb x l) (x :: l).
Proof.
  induction l as [| y l IH]; simpl; [reflexivity |].
  destruct (leb x y); [reflexivity |].
  rewrite IH. apply perm_swap.
Qed.

Lemma order_by_perm l : Permutation (order_by leb l) l.
Proof.
  induction l as [| x l IH]; simpl; [reflexivity |].
  rewrite insert_row_perm. constructor. exact IH.
Qed.

Lemma order_by_nil l : order_by leb l = [] <-> l = [].
Proof.
  split; intros H.
  - apply Permutation_nil. rewrite <- H. apply order_by_perm.
  - subst. reflexivity.
Qed.

Hypothesis leb_total : forall a b, leb a b = false -> leb b a = true.

Lemma insert_row_sorted x l :
  Sorted (fun a b => leb a b = true) l ->
  Sorted (fun a b => leb a b = true) (insert_row leb x l).
Proof.
  induction l as [| y l IH]; intros Hs; simpl.
  - repeat constructor.
  - destruct (leb x y) eqn:E.
    + constructor; [exact Hs | constructor; exact E].
    + inversion Hs as [| ? ? Hs' Hhd]; subst.
      constructor; [apply IH; exact Hs' |].
      destruct l as [| z l]; simpl.
      * constructor. apply leb_total. exact E.
      * destruct (leb x z); constructor.
        -- apply leb_total. exact E.
        -- inversion Hhd; assumption.
Qed.

Lemma order_by_sorted l : Sorted (fun a b => leb a b = true) (order_by leb l).
Proof.
  induction l as [| x l IH]; simpl; [constructor |].
  apply insert_row_sorted. exact IH.
Qed.

End OrderByFacts.

Lemma limit_length {A : Type} n (l : list A) : (List.length (limit n l) <= n)%nat.
Proof. unfold limit. apply firstn_le_length. Qed.

Lemma limit_In {A : Type} n (l : list A) x : In x (limit n l) -> In x l.
Proof.
  unfold limit. intros H. rewrite <- (firstn_skipn n l).
  apply in_or_app. left. exact H.
Qed.

Lemma limit_nil {A : Type} n (l : list A) : limit (S n) l = [] <-> l = [].
Proof.
  unfold limit. destruct l; simpl; split; intros H; try reflexivity; discriminate.
Qed.

Lemma limit_all {A : Type} n (l : list A) :
  (List.length l <= n)%nat -> limit n l = l.
Proof. unfold limit. apply firstn_all2. Qed.

Lemma limit_NoDup {A : Type} n (l : list A) : NoDup l -> NoDup (limit n l).
Proof.
  unfold limit. intros H. rewrite <- (firstn_skipn n l) in H.
  apply NoDup_app_remove_r in H. exact H.
Qed.

(** ** GET /api/voting/batch/:userId *)

Lemma NoDup_map_filter {A B : Type} (f : A -> B) p (l : list A) :
  NoDup (map f l) -> NoDup (map f (filter p l)).
Proof.
  induction l as [| x l IH]; simpl; intros H; [constructor |].
  inversion H as [| ? ? Hnin Hnd]; subst.
  destruct (p x); simpl; [constructor |]; auto.
  intros Hin. apply Hnin. apply in_map_iff in Hin.
  destruct Hin as [y [Hy Hin]]. apply filter_In in Hin.
  apply in_map_iff. exists y. tauto.
Qed.

Lemma NoDup_map_inj {A B : Type} (f : A -> B) (l : list A) x y :
  NoDup (map f l) -> In x l -> In y l -> f x = f y -> x = y.
Proof.
  induction l as [| z l IH]; simpl; intros Hnd Hx Hy Hf; [contradiction |].
  inversion Hnd as [| ? ? Hnin Hnd']; subst.
  destruct Hx as [-> | Hx], Hy as [-> | Hy]; auto.
  - exfalso. apply Hnin. rewrite Hf. apply in_map. exact Hy.
  - exfalso. apply Hnin. rewrite <- Hf. apply in_map. exact Hx.
Qed.

Lemma returned_false e es :
  ~ In (id e) (map id es) -> forall r, id r = id e -> returned es r = false.
Proof.
  intros Hnin r Hr. unfold returned.
  destruct (existsb _ es) eqn:E; [| reflexivity].
  apply existsb_exists in E. destruct E as [x [Hx Hid]].
  apply Z.eqb_eq in Hid. exfalso. apply Hnin.
  apply in_map_iff. exists x. split; [congruence | exact Hx].
Qed.

(** Every row whose id is the id of an entry is shown once more, and no
    other row changes, provided the entries have distinct ids. *)
Lemma mark_shown_spec es tbl :
  NoDup (map id es) ->
  mark_shown es tbl
  = map (fun r => if returned es r then add_times_shown r else r) tbl.
Proof.
  unfold mark_shown. revert tbl.
  induction es as [| e es IH]; intros tbl Hnd; simpl.
  - symmetry. apply map_id.
  - inversion Hnd as [| ? ? Hnin Hnd']; subst.
    rewrite IH by exact Hnd'. unfold update_where. rewrite map_map.
    apply map_ext. intros r. unfold has_id.
    destruct (Z.eqb_spec (id r) (id e)) as [Heq | Hne].
    + rewrite (returned_false e es Hnin (add_times_shown r)) by exact Heq.
      destruct (Z.eqb_spec (id e) (id r)); [reflexivity | congruence].
    + destruct (Z.eqb_spec (id e) (id r)); [congruence | reflexivity].
Qed.

Lemma returned_iff es tbl r :
  NoDup (map id tbl) -> incl es tbl -> In r tbl ->
  returned es r = true <-> In r es.
Proof.
  intros Hnd Hincl Hr. unfold returned. rewrite existsb_exists. split.
  - intros [e [He Hid]]. apply Z.eqb_eq in Hid.
    assert (e = r) as <-; [| exact He].
    apply (NoDup_map_inj id tbl); auto.
  - intros H. exists r. split; [exact H | apply Z.eqb_refl].
Qed.

Section Batch.

Variables (rnd rnd' : Z -> Z) (userId : Z) (db : DB).

Lemma candidate_In e :
  In e (all_candidates userId db) ->
  In e (submissions db)
  /\ user_id e <> userId
  /\ (forall v, In v (user_votes db) -> voter_id v = userId ->
        submission_id v <> id e).
Proof.
  unfold all_candidates, select_where. intros H.
  apply filter_In in H. destruct H as [Hin Hc].
  unfold unvoted_candidate in Hc. apply andb_true_iff in Hc.
  destruct Hc as [Hu Hv]. apply negb_true_iff in Hu, Hv.
  split; [exact Hin |]. split; [apply Z.eqb_neq; exact Hu |].
  intros v Hvin Hvoter Hsid.
  assert (existsb (Z.eqb (id e)) (voted_ids userId (user_votes db)) = true);
    [| congruence].
  apply existsb_exists. exists (submission_id v). split.
  - unfold voted_ids. apply in_map. apply filter_In. split; [exact Hvin |].
    apply Z.eqb_eq. exact Hvoter.
  - apply Z.eqb_eq. symmetry. exact Hsid.
Qed.

Lemma qualified_candidate_In e :
  In e (qualified_candidates userId db) ->
  In e (all_candidates userId db) /\ status e = QUALIFIED.
Proof.
  unfold qualified_candidates, all_candidates, select_where. intros H.
  apply filter_In in H. destruct H as [Hin Hc].
  apply andb_true_iff in Hc. destruct Hc as [Hc Hs].
  split; [apply filter_In; auto | apply String.eqb_eq; exact Hs].
Qed.

Lemma pending_query_In e :
  In e (pending_query rnd' userId db) -> In e (all_candidates userId db).
Proof.
  unfold pending_query. intros H. apply limit_In in H.
  eapply Permutation_in; [apply order_by_perm | exact H].
Qed.

Lemma qualified_query_In e :
  In e (qualified_query rnd userId db) ->
  In e (qualified_candidates userId db).
Proof.
  unfold qualified_query. intros H. apply limit_In in H.
  eapply Permutation_in; [apply order_by_perm | exact H].
Qed.

Lemma qualified_query_nil :
  qualified_query rnd userId db = [] <-> qualified_candidates userId db = [].
Proof.
  unfold qualified_query. rewrite limit_nil. apply order_by_nil.
Qed.

Lemma query_ids_NoDup p (r : Z -> Z) :
  NoDup (map id (submissions db)) ->
  NoDup (map id (limit 25 (order_by (shown_leb r)
                             (select_where p (submissions db))))).
Proof.
  intros H. unfold limit. rewrite <- firstn_map. apply limit_NoDup.
  eapply Permutation_NoDup.
  - apply Permutation_map. symmetry. apply order_by_perm.
  - apply NoDup_map_filter. exact H.
Qed.

(** The entries of the response: the fallback is taken exactly when no
    QUALIFIED candidate is left. *)
Lemma batch_entries :
  entries (snd (getVotingBatch rnd rnd' userId db))
  = match qualified_candidates userId db with
    | [] => pending_query rnd' userId db
    | _ :: _ => qualified_query rnd userId db
    end.
Proof.
  unfold getVotingBatch.
  destruct (qualified_query rnd userId db) as [| e es] eqn:E; simpl.
  - apply qualified_query_nil in E. rewrite E. reflexivity.
  - destruct (qualified_candidates userId db) eqn:E'; [| reflexivity].
    apply qualified_query_nil in E'. congruence.
Qed.

Lemma batch_store :
  fst (getVotingBatch rnd rnd' userId db)
  = mkDB (mark_shown (entries (snd (getVotingBatch rnd rnd' userId db)))
            (submissions db))
         (user_votes db).
Proof. unfold getVotingBatch. destruct (_ =? _)%nat; reflexivity. Qed.

Lemma batch_success_always :
  batch_success (snd (getVotingBatch rnd rnd' userId db)) = true.
Proof. unfold getVotingBatch. destruct (_ =? _)%nat; reflexivity. Qed.

Lemma batch_entries_candidates e :
  In e (entries (snd (getVotingBatch rnd rnd' userId db))) ->
  In e (all_candidates userId db).
Proof.
  rewrite batch_entries. destruct (qualified_candidates userId db) eqn:E.
  - apply pending_query_In.
  - intros H. apply qualified_query_In in H.
    apply qualified_candidate_In in H. tauto.
Qed.

Lemma batch_entries_length :
  (List.length (entries (snd (getVotingBatch rnd rnd' userId db))) <= 25)%nat.
Proof.
  rewrite batch_entries. destruct (qualified_candidates userId db);
    apply limit_length.
Qed.

Lemma batch_entries_NoDup :
  NoDup (map id (submissions db)) ->
  NoDup (map id (entries (snd (getVotingBatch rnd rnd' userId db)))).
Proof.
  intros H. rewrite batch_entries. destruct (qualified_candidates userId db);
    apply query_ids_NoDup; exact H.
Qed.

End Batch.

Lemma candidate_iff userId db r :
  In r (all_candidates userId db) <->
  In r (submissions db)
  /\ user_id r <> userId
  /\ (forall v, In v (user_votes db) -> voter_id v = userId ->
        submission_id v <> id r).
Proof.
  split; [apply candidate_In |].
  intros [Hin [Hu Hv]]. unfold all_candidates, select_where.
  apply filter_In. split; [exact Hin |].
  unfold unvoted_candidate. apply andb_true_iff. split.
  - apply negb_true_iff. apply Z.eqb_neq. exact Hu.
  - apply negb_true_iff.
    destruct (existsb _ _) eqn:E; [| reflexivity].
    apply existsb_exists in E. destruct E as [sid [Hsid Heq]].
    apply Z.eqb_eq in Heq. unfold voted_ids in Hsid.
    apply in_map_iff in Hsid. destruct Hsid as [v [Hvs Hvin]].
    apply filter_In in Hvin. destruct Hvin as [Hvin Hvoter].
    apply Z.eqb_eq in Hvoter. exfalso.
    apply (Hv v Hvin Hvoter). congruence.
Qed.

(** C7. With ids a key of the submissions table: the batch request
    succeeds, returns at most 25 entries, each a submission of another
    user on which the caller has no vote; in the store, times_shown of
    exactly the returned submissions is one more and nothing else
    changes; with no candidate left, the answer is the empty list, a
    success, and the store is unchanged. *)
Theorem voting_batch_spec (rnd rnd' : Z -> Z) (userId : Z) (db : DB) :
  NoDup (map id (submissions db)) ->
  let out := getVotingBatch rnd rnd' userId db in
  let es := entries (snd out) in
  batch_success (snd out) = true
  /\ (List.length es <= 25)%nat
  /\ (forall e, In e es ->
        In e (submissions db)
        /\ user_id e <> userId
        /\ (forall v, In v (user_votes db) -> voter_id v = userId ->
              submission_id v <> id e))
  /\ submissions (fst out)
     = map (fun r => if returned es r then add_times_shown r else r)
           (submissions db)
  /\ map times_shown (submissions (fst out))
     = map (fun r => times_shown r + (if returned es r then 1 else 0))
           (submissions db)
  /\ (forall r, In r (submissions db) -> (returned es r = true <-> In r es))
  /\ user_votes (fst out) = user_votes db
  /\ (all_candidates userId db = [] -> es = [] /\ fst out = db).
Proof.
  intros Hnd. cbv zeta.
  pose proof (batch_entries_NoDup rnd rnd' userId db Hnd) as Hes.
  assert (Hsub : submissions (fst (getVotingBatch rnd rnd' userId db))
    = map (fun r => if returned (entries (snd (getVotingBatch rnd rnd' userId db))) r
                    then add_times_shown r else r) (submissions db)).
  { rewrite batch_store at 1. cbn [submissions]. apply mark_shown_spec. exact Hes. }
  split; [apply batch_success_always |].
  split; [apply batch_entries_length |].
  split; [intros e He; apply candidate_In;
          eapply batch_entries_candidates; exact He |].
  split; [exact Hsub |].
  split.
  { rewrite Hsub, map_map. apply map_ext. intros r.
    destruct (returned _ r); simpl; lia. }
  split.
  { intros r Hr. apply (returned_iff _ (submissions db)); auto.
    intros e He. apply batch_entries_candidates in He.
    apply candidate_In in He. tauto. }
  split; [rewrite batch_store; reflexivity |].
  intros Hnone.
  assert (He : entries (snd (getVotingBatch rnd rnd' userId db)) = []).
  { destruct (entries _) as [| e es] eqn:E; [reflexivity |].
    assert (In e (all_candidates userId db)) as Hin.
    { eapply batch_entries_candidates. rewrite E. left. reflexivity. }
    rewrite Hnone in Hin. contradiction. }
  split; [exact He |].
  rewrite batch_store, He. destruct db; reflexivity.
Qed.

Lemma voting_batch_spec_witness :
  entries (snd (getVotingBatch by_id by_id 9 early_db)) = [fresh 3 4]
  /\ map times_shown (submissions (fst (getVotingBatch by_id by_id 9 early_db)))
     = [1; 0; 0].
Proof.
  assert (Hnd : NoDup (map id (submissions early_db))).
  { repeat constructor; simpl; intuition discriminate. }
  pose proof (voting_batch_spec by_id by_id 9 early_db Hnd)
    as [_ [_ [_ [_ [Ht _]]]]].
  split; [reflexivity |]. rewrite Ht. reflexivity.
Defined.

(** C6, as the claim states it, fails: one QUALIFIED candidate is left
    for voter 9 (fewer than 25), and the batch is that candidate alone,
    not the unvoted pool with its PENDING submission 3. *)
Lemma batch_fallback_counterexample :
  (List.length (qualified_candidates 9 batch_db) < 25)%nat
  /\ all_candidates 9 batch_db = [with_status QUALIFIED (fresh 1 2); fresh 3 4]
  /\ entries (snd (getVotingBatch by_id by_id 9 batch_db))
     = [with_status QUALIFIED (fresh 1 2)]
  /\ ~ In (fresh 3 4) (entries (snd (getVotingBatch by_id by_id 9 batch_db)))
  /\ entries (snd (getVotingBatch by_id by_id 9 batch_db))
     <> pending_query by_id 9 batch_db.
Proof.
  split; [vm_compute; lia |].
  split; [reflexivity |].
  split; [reflexivity |].
  split; [| vm_compute; discriminate].
  vm_compute. intros [H | []]. discriminate H.
Qed.

(** C6, amended. The batch falls back to the unvoted pool (no condition
    on the status, so PENDING submissions too) exactly when no QUALIFIED
    candidate is left for the voter; with one or more left, the batch
    holds QUALIFIED candidates only, however few. In both cases an entry
    is a submission of another user on which the voter has no vote, and
    the pool is all such submissions. *)
Theorem batch_fallback_when_none_qualified (rnd rnd' : Z -> Z)
    (userId : Z) (db : DB) :
  let es := entries (snd (getVotingBatch rnd rnd' userId db)) in
  (qualified_candidates userId db = [] ->
     es = limit 25 (order_by (shown_leb rnd') (all_candidates userId db))
     /\ ((List.length (all_candidates userId db) <= 25)%nat ->
         Permutation es (all_candidates userId db)))
  /\ (qualified_candidates userId db <> [] ->
        es = limit 25 (order_by (shown_leb rnd)
                         (qualified_candidates userId db))
        /\ es <> []
        /\ Forall (fun e => status e = QUALIFIED) es)
  /\ (forall e, In e es ->
        user_id e <> userId
        /\ (forall v, In v (user_votes db) -> voter_id v = userId ->
              submission_id v <> id e))
  /\ (forall r, In r (all_candidates userId db) <->
        In r (submissions db)
        /\ user_id r <> userId
        /\ (forall v, In v (user_votes db) -> voter_id v = userId ->
              submission_id v <> id r)).
Proof.
  cbv zeta. split; [| split; [| split]].
  - intros Hnone. rewrite batch_entries, Hnone. split; [reflexivity |].
    intros Hlen. unfold pending_query. rewrite limit_all.
    + apply order_by_perm.
    + rewrite (Permutation_length (order_by_perm _ _)). exact Hlen.
  - intros Hsome. rewrite batch_entries.
    destruct (qualified_candidates userId db) as [| q qs] eqn:E;
      [contradiction |].
    split; [unfold qualified_query; rewrite E; reflexivity |].
    split.
    + intros H. apply qualified_query_nil in H. congruence.
    + apply Forall_forall. intros e He. apply qualified_query_In in He.
      apply qualified_candidate_In in He. tauto.
  - intros e He. apply batch_entries_candidates in He.
    apply candidate_In in He. tauto.
  - intros r. apply candidate_iff.
Qed.

Lemma batch_fallback_when_none_qualified_witness :
  entries (snd (getVotingBatch by_id by_id 9 early_db)) = [fresh 3 4]
  /\ Forall (fun e => status e = QUALIFIED)
       (entries (snd (getVotingBatch by_id by_id 9 batch_db))).
Proof.
  pose proof (batch_fallback_when_none_qualified by_id by_id 9 early_db)
    as [Hnone _].
  pose proof (batch_fallback_when_none_qualified by_id by_id 9 batch_db)
    as [_ [Hsome _]].
  split.
  - destruct (Hnone eq_refl) as [He _]. rewrite He. reflexivity.
  - apply Hsome. vm_compute. discriminate.
Defined.

(** ** GET /api/winners/:weekNumber *)

Lemma minimumVotes_eq n : minimumVotes n = Z.max ((n + 4) / 5) 1.
Proof.
  unfold minimumVotes, Qceiling, Qfloor. f_equal.
  unfold Qopp, Qmult, inject_Z. cbn [Qnum Qden].
  change (Z.pos (1 * 100)) with 100.
  Z.div_mod_to_equations. lia.
Qed.

Lemma minimumVotes_least n :
  let m := minimumVotes n in
  1 <= m /\ n <= 5 * m /\ (forall k, 1 <= k -> n <= 5 * k -> m <= k).
Proof.
  cbv zeta. rewrite minimumVotes_eq.
  pose proof (Z.div_mod (n + 4) 5 ltac:(discriminate)) as Hd.
  pose proof (Z.mod_pos_bound (n + 4) 5 ltac:(reflexivity)) as Hm.
  split; [lia |]. split; [lia |].
  intros k Hk Hn. lia.
Qed.

(** The exact threshold and order are those of the double-precision
    computation, on every voter count up to 4000 and every pair of
    tallies of at most 30 votes. *)
Lemma minimumVotes_double_agrees :
  forallb (fun n => Double.minimumVotes_f64 n =? minimumVotes n)
          (map Z.of_nat (seq 0 4001)) = true.
Proof. vm_compute. reflexivity. Qed.

Lemma winner_leb_double_agrees :
  forallb (fun a => forallb (fun b => Bool.eqb (Double.winner_leb_f64 a b)
                                               (winner_leb a b))
                            small_tallies)
          small_tallies = true.
Proof. vm_compute. reflexivity. Qed.

Lemma count_distinct_voters_spec votes :
  exists voters,
    NoDup voters
    /\ (forall u, In u voters <-> exists v, In v votes /\ voter_id v = u)
    /\ count_distinct_voters votes = Z.of_nat (List.length voters).
Proof.
  exists (nodup Z.eq_dec (map voter_id votes)).
  split; [apply NoDup_nodup |]. split; [| reflexivity].
  intros u. rewrite nodup_In, in_map_iff. split; intros [v [H1 H2]]; eauto.
Qed.

Lemma winner_leb_spec a b : winner_leb a b = true <-> ranks_before a b.
Proof.
  unfold winner_leb, ranks_before.
  rewrite orb_true_iff, andb_true_iff, negb_true_iff, Qeq_bool_iff, Z.leb_le.
  split; intros [H | H]; [left | right; exact H | left | right; exact H].
  - apply Qnot_le_lt. intros Hle. apply Qle_bool_iff in Hle. congruence.
  - destruct (Qle_bool _ _) eqn:E; [| reflexivity].
    apply Qle_bool_iff in E. exfalso. exact (Qlt_not_le _ _ H E).
Qed.

Lemma winner_leb_total a b : winner_leb a b = false -> winner_leb b a = true.
Proof.
  intros H. apply winner_leb_spec.
  assert (Hn : ~ ranks_before a b).
  { intros Hr. apply winner_leb_spec in Hr. congruence. }
  unfold ranks_before in *.
  destruct (Qlt_le_dec (approval_rating a) (approval_rating b)) as [Hlt | Hle];
    [left; exact Hlt |].
  destruct (Qlt_le_dec (approval_rating b) (approval_rating a)) as [Hlt | Hle'];
    [exfalso; apply Hn; left; exact Hlt |].
  assert (Heq : (approval_rating a == approval_rating b)%Q)
    by (apply Qle_antisym; assumption).
  right. split; [symmetry; exact Heq |].
  destruct (Z_le_gt_dec (total_votes b) (total_votes a)); [| lia].
  exfalso. apply Hn. right. split; assumption.
Qed.

Lemma ranks_before_trans a b c :
  ranks_before a b -> ranks_before b c -> ranks_before a c.
Proof.
  unfold ranks_before.
  intros [H1 | [H1 H1']] [H2 | [H2 H2']].
  - left. eapply Qlt_trans; eassumption.
  - left. rewrite <- H2. exact H1.
  - left. rewrite H1. exact H2.
  - right. split; [rewrite H1; exact H2 | lia].
Qed.

Lemma Sorted_ranks l :
  Sorted (fun a b => winner_leb a b = true) l -> StronglySorted ranks_before l.
Proof.
  intros H. apply Sorted_StronglySorted.
  - intros a b c. apply ranks_before_trans.
  - induction H as [| a l Hs IH Hhd]; constructor; [exact IH |].
    destruct Hhd; constructor. apply winner_leb_spec. assumption.
Qed.

Lemma StronglySorted_app {A : Type} (R : A -> A -> Prop) l1 l2 :
  StronglySorted R (l1 ++ l2) ->
  StronglySorted R l1 /\ (forall x y, In x l1 -> In y l2 -> R x y).
Proof.
  induction l1 as [| a l1 IH]; simpl; intros H.
  - split; [constructor | intros x y []].
  - inversion H as [| ? ? Hs Hall]; subst.
    destruct (IH Hs) as [H1 H2]. split.
    + constructor; [exact H1 |].
      apply Forall_forall. intros x Hx. rewrite Forall_forall in Hall.
      apply Hall. apply in_or_app. left. exact Hx.
    + intros x y [-> | Hx] Hy.
      * rewrite Forall_forall in Hall. apply Hall. apply in_or_app.
        right. exact Hy.
      * apply H2; assumption.
Qed.

Lemma winner_eligible_spec w m r :
  winner_eligible w m r = true <->
  week_number r = w /\ status r = QUALIFIED /\ m <= total_votes r.
Proof.
  unfold winner_eligible.
  rewrite !andb_true_iff, Z.eqb_eq, String.eqb_eq, Z.geb_le. tauto.
Qed.

Lemma approval_rating_ratio r :
  0 < total_votes r ->
  (approval_rating r
   == inject_Z (thumbs_up r) / inject_Z (total_votes r) * inject_Z 100)%Q.
Proof.
  intros H. unfold approval_rating.
  destruct (Z.gtb_spec (total_votes r) 0); [reflexivity | lia].
Qed.


(** The example of the specification: ten voters give the threshold 2;
    the submission with one vote is left out and 3 of 3 ranks above 6 of
    10. *)
Example winners_example :
  winners_minimumVotes (snd (getWinners 1 winners_db)) = 2
  /\ map (fun w => id (row w)) (winners (snd (getWinners 1 winners_db)))
     = [3; 2].
Proof. split; reflexivity. Qed.


(** * The other handlers *)

(** ** POST /api/upload-part *)

Lemma getCurrentWeek_range now : 0 <= getCurrentWeek now <= 11.
Proof.
  rewrite getCurrentWeek_eq. cbv zeta.
  destruct (Z.ltb_spec ((now - startDate) / ms_per_week + 1) 1); [lia |].
  destruct (Z.gtb_spec ((now - startDate) / ms_per_week + 1) 10); lia.
Qed.

Lemma getCurrentWeek_open now :
  startDate <= now < startDate + 70 * ms_per_day ->
  getCurrentWeek now = (now - startDate) / ms_per_week + 1
  /\ 1 <= getCurrentWeek now <= 10.
Proof.
  intros [Hlo Hhi]. rewrite getCurrentWeek_eq. cbv zeta.
  assert (0 <= (now - startDate) / ms_per_week < 10).
  { split.
    - apply Z.div_pos; [lia | reflexivity].
    - apply Z.div_lt_upper_bound; [reflexivity |].
      unfold ms_per_week. lia. }
  destruct (Z.ltb_spec ((now - startDate) / ms_per_week + 1) 1); [lia |].
  destruct (Z.gtb_spec ((now - startDate) / ms_per_week + 1) 10); lia.
Qed.



(** ** Invariants of the submissions table *)

Section RowInvariant.

Variable insert_ok : DB -> UserVote -> bool.
Variable P : Submission -> Prop.

Hypothesis P_count : forall c r, P r -> P (count_vote c r).
Hypothesis P_completed : forall n r, P r -> P (set_votes_completed n r).
Hypothesis P_qualified : forall t r, P r -> P (set_qualified t r).
Hypothesis P_shown : forall r, P r -> P (add_times_shown r).
Hypothesis P_winner : forall r, P r -> P (set_winner r).
Hypothesis P_new :
  forall tbl u w, 1 <= w <= 10 -> P (new_submission tbl u w).

Lemma castVote_rows c db :
  Forall P (submissions db) ->
  Forall P (submissions (fst (castVote insert_ok c db))).
Proof.
  intros H. destruct (insert_ok db (vote_row c)) eqn:Hok.
  - rewrite (castVote_accepted _ _ _ Hok). cbv zeta.
    assert (Hc : Forall P (counted c (submissions db))).
    { apply update_where_Forall; [apply P_count | exact H]. }
    destruct (select_where _ _); [exact Hc |].
    destruct (_ && _); simpl; apply update_where_Forall; auto.
  - rewrite (castVote_rejected _ _ _ Hok). exact H.
Qed.

Lemma handle_rows q db :
  Forall P (submissions db) -> Forall P (submissions (handle insert_ok q db)).
Proof.
  intros H. destruct q as [now u ok | rnd rnd' u | c | w | a sid]; simpl.
  - unfold uploadPart. destruct (negb ok); [exact H |].
    pose proof (getCurrentWeek_range now) as Hr.
    destruct (Z.eqb_spec (getCurrentWeek now) 0); [exact H |].
    destruct (Z.eqb_spec (getCurrentWeek now) 11); [exact H |].
    simpl. apply Forall_app. split; [exact H |].
    constructor; [apply P_new; lia | constructor].
  - unfold getVotingBatch.
    destruct (_ =? _)%nat; simpl; apply mark_shown_Forall; auto.
  - apply castVote_rows. exact H.
  - exact H.
  - unfold selectWinner. destruct (negb a); [exact H |].
    destruct (select_where _ _); [exact H |].
    simpl. apply update_where_Forall; auto.
Qed.

Lemma serve_rows qs db :
  Forall P (submissions db) -> Forall P (submissions (serve insert_ok qs db)).
Proof.
  unfold serve. revert db.
  induction qs as [| q qs IH]; intros db H; simpl; [exact H |].
  apply IH. apply handle_rows. exact H.
Qed.

End RowInvariant.

Lemma count_where_le p tbl :
  0 <= count_where p tbl <= count_where (fun _ => true) tbl.
Proof.
  unfold count_where, select_where. split; [lia |].
  apply inj_le. induction tbl as [| r tbl IH]; simpl; [lia |].
  destruct (p r); simpl; lia.
Qed.

Lemma count_where_all tbl :
  count_where (fun _ => true) tbl = Z.of_nat (List.length tbl).
Proof.
  unfold count_where, select_where. f_equal.
  induction tbl as [| r l IH]; simpl; [reflexivity |]. rewrite IH. reflexivity.
Qed.

Lemma count_where_none p tbl :
  Forall (fun r => p r = false) tbl -> count_where p tbl = 0.
Proof.
  intros H. unfold count_where, select_where.
  induction H as [| r tbl Hr _ IH]; simpl; [reflexivity |].
  rewrite Hr. exact IH.
Qed.

(** X2. In every store the server reaches from the empty one, each
    submission carries a week from 1 to 10. The statistics request
    reports "Active" exactly in the 70 days from the start date, and
    outside them it counts no submission for the current week; each of
    its counts is at most the total. *)
Theorem stats_follow_the_window (insert_ok : DB -> UserVote -> bool)
    (qs : list Request) (now : Z) :
  let db := serve insert_ok qs empty_db in
  let st := getCompetitionStats now db in
  Forall (fun r => 1 <= week_number r <= 10) (submissions db)
  /\ (competitionStatus st = "Active"%string
      <-> startDate <= now < startDate + 70 * ms_per_day)
  /\ (competitionStatus st = "Not Started"%string <-> now < startDate)
  /\ (competitionStatus st <> "Active"%string -> weeklySubmissions st = 0)
  /\ totalSubmissions st = Z.of_nat (List.length (submissions db))
  /\ 0 <= weeklySubmissions st <= totalSubmissions st
  /\ 0 <= totalWinners st <= totalSubmissions st
  /\ 0 <= qualifiedEntries st <= totalSubmissions st.
Proof.
  cbv zeta.
  assert (Hweeks : Forall (fun r => 1 <= week_number r <= 10)
                     (submissions (serve insert_ok qs empty_db))).
  { apply serve_rows.
    - intros c r H. unfold count_vote.
      destruct (JS.strict_eq_num _ _); exact H.
    - intros n r H. exact H.
    - intros t r H. exact H.
    - intros r H. exact H.
    - intros r H. exact H.
    - intros tbl u w Hw. exact Hw.
    - constructor. }
  unfold getCompetitionStats.
  cbn [competitionStatus weeklySubmissions totalSubmissions totalWinners
       qualifiedEntries].
  split; [exact Hweeks |].
  assert (Hcases : now < startDate /\ getCurrentWeek now = 0
                   \/ (startDate <= now < startDate + 70 * ms_per_day
                       /\ 1 <= getCurrentWeek now <= 10)
                   \/ (startDate + 70 * ms_per_day <= now
                       /\ getCurrentWeek now = 11)).
  { destruct (Z_lt_le_dec now startDate) as [H | H];
      [left; split; [exact H | apply week_before; exact H] |].
    destruct (Z_lt_le_dec now (startDate + 70 * ms_per_day)) as [H' | H'].
    - right; left. split; [lia |]. apply getCurrentWeek_open. lia.
    - right; right. split; [exact H' |]. apply week_after.
      unfold ms_per_week. lia. }
  split; [| split; [| split]].
  - destruct (Z.eqb_spec (getCurrentWeek now) 0);
      destruct (Z.eqb_spec (getCurrentWeek now) 11);
      destruct Hcases as [[H Hw] | [[H Hw] | [H Hw]]]; try lia;
      (split; [try discriminate; intros _; assumption
              | intros; try reflexivity; unfold ms_per_day in *; lia]).
  - destruct (Z.eqb_spec (getCurrentWeek now) 0);
      destruct (Z.eqb_spec (getCurrentWeek now) 11);
      destruct Hcases as [[H Hw] | [[H Hw] | [H Hw]]]; try lia;
      (split; [try discriminate; intros _; assumption
              | intros; try reflexivity; unfold ms_per_day in *; lia]).
  - intros Hna. apply count_where_none.
    eapply Forall_impl; [| exact Hweeks]. intros r Hr. simpl in Hr.
    apply Z.eqb_neq.
    destruct Hcases as [[H Hw] | [[H Hw] | [H Hw]]]; try lia.
    exfalso. apply Hna.
    destruct (Z.eqb_spec (getCurrentWeek now) 0); [lia |].
    destruct (Z.eqb_spec (getCurrentWeek now) 11); [lia |]. reflexivity.
  - split.
    + apply count_where_all.
    + repeat split; apply count_where_le.
Qed.

Lemma stats_follow_the_window_witness :
  weeklySubmissions
    (getCompetitionStats (startDate + 100 * ms_per_day)
       (serve accept_all sample_trace empty_db)) = 0
  /\ competitionStatus
       (getCompetitionStats during_week_1
          (serve accept_all sample_trace empty_db)) = "Active"%string.
Proof.
  pose proof (stats_follow_the_window accept_all sample_trace
                (startDate + 100 * ms_per_day)) as [_ [_ [_ [Hout _]]]].
  pose proof (stats_follow_the_window accept_all sample_trace during_week_1)
    as [_ [Hact _]].
  split.
  - apply Hout. vm_compute. discriminate.
  - apply Hact. vm_compute. split; [discriminate | reflexivity].
Defined.

(** ** Rows are never deleted *)

Lemma row_kept_refl r : row_kept r r.
Proof. unfold row_kept. repeat split; auto; lia. Qed.

Lemma row_kept_trans a b c : row_kept a b -> row_kept b c -> row_kept a c.
Proof.
  unfold row_kept. intros (?&?&?&?&?&?&?&?) (?&?&?&?&?&?&?&?).
  repeat split; try congruence; try lia. auto.
Qed.

Lemma Forall2_row_kept_refl tbl : Forall2 row_kept tbl tbl.
Proof. induction tbl; constructor; auto using row_kept_refl. Qed.

Lemma Forall2_row_kept_trans l1 l2 l3 :
  Forall2 row_kept l1 l2 -> Forall2 row_kept l2 l3 -> Forall2 row_kept l1 l3.
Proof.
  intros H. revert l3. induction H; intros l3 H3; inversion H3; subst;
    constructor; eauto using row_kept_trans.
Qed.

Lemma update_where_kept p f tbl :
  (forall r, row_kept r (f r)) -> Forall2 row_kept tbl (update_where p f tbl).
Proof.
  intros Hf. unfold update_where. induction tbl as [| r tbl IH]; simpl;
    constructor; [| exact IH].
  destruct (p r); [apply Hf | apply row_kept_refl].
Qed.

Lemma table_grows_refl tbl : table_grows tbl tbl.
Proof.
  exists tbl, []. split; [symmetry; apply app_nil_r |].
  apply Forall2_row_kept_refl.
Qed.

Lemma table_grows_kept tbl tbl' :
  Forall2 row_kept tbl tbl' -> table_grows tbl tbl'.
Proof. intros H. exists tbl', []. split; [symmetry; apply app_nil_r | exact H]. Qed.

Lemma table_grows_trans t1 t2 t3 :
  table_grows t1 t2 -> table_grows t2 t3 -> table_grows t1 t3.
Proof.
  intros [k1 [a1 [-> H1]]] [k2 [a2 [-> H2]]].
  apply Forall2_app_inv_l in H2. destruct H2 as [k [a [Hk [Ha ->]]]].
  exists k, (a ++ a2). split; [rewrite app_assoc; reflexivity |].
  eapply Forall2_row_kept_trans; eassumption.
Qed.

Lemma count_vote_kept c r : row_kept r (count_vote c r).
Proof.
  unfold count_vote, row_kept.
  destruct (JS.strict_eq_num _ _); simpl; repeat split; auto; lia.
Qed.

Lemma mark_shown_kept es tbl : Forall2 row_kept tbl (mark_shown es tbl).
Proof.
  unfold mark_shown. revert tbl.
  induction es as [| e es IH]; intros tbl; simpl;
    [apply Forall2_row_kept_refl |].
  eapply Forall2_row_kept_trans; [| apply IH].
  apply update_where_kept. intros r. unfold row_kept. simpl.
  repeat split; auto; lia.
Qed.

Section Kept.

Variable insert_ok : DB -> UserVote -> bool.

Lemma castVote_kept c db :
  Forall2 row_kept (submissions db)
    (submissions (fst (castVote insert_ok c db))).
Proof.
  destruct (insert_ok db (vote_row c)) eqn:Hok;
    [| rewrite castVote_rejected by exact Hok; apply Forall2_row_kept_refl].
  rewrite (castVote_accepted _ _ _ Hok). cbv zeta.
  assert (Hc : Forall2 row_kept (submissions db) (counted c (submissions db))).
  { apply update_where_kept. apply count_vote_kept. }
  destruct (select_where _ _); [exact Hc |].
  destruct (_ && _); cbn [fst submissions];
    (eapply Forall2_row_kept_trans; [exact Hc |]);
    apply update_where_kept; intros r; unfold row_kept; simpl;
    repeat split; auto; lia.
Qed.

Lemma handle_grows q db :
  table_grows (submissions db) (submissions (handle insert_ok q db)).
Proof.
  destruct q as [now u ok | rnd rnd' u | c | w | a sid]; simpl.
  - unfold uploadPart. destruct (negb ok); [apply table_grows_refl |].
    destruct (_ =? 0); [apply table_grows_refl |].
    destruct (_ =? 11); [apply table_grows_refl |].
    simpl. eexists _, _. split; [reflexivity |].
    apply Forall2_row_kept_refl.
  - apply table_grows_kept. rewrite batch_store. apply mark_shown_kept.
  - apply table_grows_kept. apply castVote_kept.
  - apply table_grows_refl.
  - unfold selectWinner. destruct (negb a); [apply table_grows_refl |].
    destruct (select_where _ _); [apply table_grows_refl |].
    apply table_grows_kept. apply update_where_kept.
    intros r. unfold row_kept. simpl. repeat split; auto; lia.
Qed.

Lemma serve_grows qs db :
  table_grows (submissions db) (submissions (serve insert_ok qs db)).
Proof.
  unfold serve. revert db.
  induction qs as [| q qs IH]; intros db; simpl; [apply table_grows_refl |].
  eapply table_grows_trans; [apply handle_grows | apply IH].
Qed.

End Kept.

Lemma table_grows_In tbl tbl' r :
  table_grows tbl tbl' -> In r tbl ->
  exists r', In r' tbl' /\ row_kept r r'.
Proof.
  intros [kept [added [-> H]]] Hin.
  induction H as [| x y l l' Hxy _ IH]; [contradiction |].
  destruct Hin as [-> | Hin].
  - exists y. split; [left; reflexivity | exact Hxy].
  - destruct (IH Hin) as [r' [Hr' Hk]]. exists r'. split; [right |]; assumption.
Qed.

(** X3. No request deletes, moves or reassigns a submission: after any
    sequence of requests the rows the table had are still there, in
    place, with the same id, owner and week; a winner flag that was set
    is still set; times_shown, thumbs_up, thumbs_down and total_votes
    have not gone down. Rows are only added at the end. *)
Theorem rows_are_kept (insert_ok : DB -> UserVote -> bool)
    (qs : list Request) (db : DB) :
  exists kept added,
    submissions (serve insert_ok qs db) = kept ++ added
    /\ Forall2 row_kept (submissions db) kept
    /\ List.length kept = List.length (submissions db).
Proof.
  destruct (serve_grows insert_ok qs db) as [kept [added [Heq H]]].
  exists kept, added. split; [exact Heq |]. split; [exact H |].
  symmetry. eapply Forall2_length. exact H.
Qed.

(** ** POST /api/admin/select-winner/:id *)

Lemma select_has_id_nil sid (tbl : list Submission) :
  select_where (has_id sid) tbl = [] <-> (forall r, In r tbl -> id r <> sid).
Proof.
  unfold select_where, has_id. split.
  - intros H r Hr Hid.
    assert (In r (filter (fun r => id r =? sid) tbl)) as Hin.
    { apply filter_In. split; [exact Hr | apply Z.eqb_eq; exact Hid]. }
    rewrite H in Hin. contradiction.
  - intros H. destruct (filter _ tbl) as [| r l] eqn:E; [reflexivity |].
    assert (In r (filter (fun r => id r =? sid) tbl)) as Hin
      by (rewrite E; left; reflexivity).
    apply filter_In in Hin. destruct Hin as [Hr Hid].
    apply Z.eqb_eq in Hid. exfalso. exact (H r Hr Hid).
Qed.

Lemma selectWinner_found sid db r :
  In r (submissions db) -> id r = sid ->
  exists r0,
    selectWinner true sid db
    = (mkDB (update_where (has_id sid) set_winner (submissions db))
            (user_votes db),
       SelectOk (set_winner r0))
    /\ In r0 (submissions db) /\ id r0 = sid.
Proof.
  intros Hin Hid. unfold selectWinner. simpl negb. cbv iota.
  rewrite select_update_same by reflexivity.
  destruct (select_where (has_id sid) (submissions db)) as [| r0 l] eqn:E.
  - exfalso. apply (proj1 (select_has_id_nil sid _) E r Hin Hid).
  - exists r0. split; [reflexivity |].
    assert (In r0 (select_where (has_id sid) (submissions db))) as H0
      by (rewrite E; left; reflexivity).
    apply filter_In in H0. destruct H0 as [H1 H2].
    split; [exact H1 | apply Z.eqb_eq; exact H2].
Qed.

(** X4. Selecting a winner: without the admin flag the answer is 403,
    and for an id no submission has it is 404; in both cases the store is
    unchanged. For an id some submission has, every row with that id gets
    is_winner and the status 'winner' (lower case), whatever its status,
    week or votes were; no other row and no other column changes, and the
    ledger is untouched. *)
Theorem selectWinner_outcomes (is_admin : bool) (sid : Z) (db : DB) :
  let out := selectWinner is_admin sid db in
  (is_admin = false -> out = (db, SelectForbidden))
  /\ (is_admin = true -> (forall r, In r (submissions db) -> id r <> sid) ->
      out = (db, SelectNotFound))
  /\ (is_admin = true -> (exists r, In r (submissions db) /\ id r = sid) ->
      (exists r0, In r0 (submissions db) /\ id r0 = sid
                  /\ snd out = SelectOk (set_winner r0))
      /\ submissions (fst out)
         = map (fun r => if id r =? sid then set_winner r else r)
               (submissions db)
      /\ user_votes (fst out) = user_votes db
      /\ (forall r, status (set_winner r) = "winner"%string
                    /\ is_winner (set_winner r) = true
                    /\ tallies (set_winner r) = tallies r
                    /\ times_shown (set_winner r) = times_shown r
                    /\ votes_completed (set_winner r) = votes_completed r
                    /\ qualified_at (set_winner r) = qualified_at r
                    /\ row_kept r (set_winner r))).
Proof.
  cbv zeta. split; [| split].
  - intros ->. reflexivity.
  - intros -> Hnone. unfold selectWinner. simpl negb. cbv iota.
    rewrite select_update_same by reflexivity.
    apply select_has_id_nil in Hnone. rewrite Hnone. reflexivity.
  - intros -> [r [Hin Hid]].
    destruct (selectWinner_found sid db r Hin Hid) as [r0 [Heq [H0 H0']]].
    rewrite Heq. cbn [fst snd submissions user_votes].
    split; [exists r0; auto |]. split; [reflexivity |].
    split; [reflexivity |].
    intros x. unfold row_kept. simpl. repeat split; auto; lia.
Qed.

Lemma selectWinner_outcomes_witness :
  selectWinner false 3 winners_db = (winners_db, SelectForbidden)
  /\ selectWinner true 99 winners_db = (winners_db, SelectNotFound)
  /\ map status (submissions (fst (selectWinner true 4 winners_db)))
     = [QUALIFIED; QUALIFIED; QUALIFIED; "winner"%string; QUALIFIED].
Proof.
  pose proof (selectWinner_outcomes false 3 winners_db) as [H403 _].
  pose proof (selectWinner_outcomes true 99 winners_db) as [_ [H404 _]].
  pose proof (selectWinner_outcomes true 4 winners_db) as [_ [_ Hok]].
  split; [apply H403; reflexivity |].
  split.
  - apply H404; [reflexivity |].
    intros r Hr. simpl in Hr.
    repeat (destruct Hr as [<- | Hr]; [discriminate |]). contradiction.
  - destruct Hok as [_ [Hs _]]; [reflexivity | |].
    + exists (tallied 4 1 PENDING 9 0). split; [| reflexivity].
      simpl. tauto.
    + rewrite Hs. reflexivity.
Defined.

Lemma getWeeklyWinners_In db r :
  In r (getWeeklyWinners db) <-> In r (submissions db) /\ is_winner r = true.
Proof.
  unfold getWeeklyWinners. split.
  - intros H. apply (Permutation_in _ (order_by_perm _ _)) in H.
    apply filter_In in H. exact H.
  - intros H. apply (Permutation_in _ (Permutation_sym (order_by_perm _ _))).
    apply filter_In. exact H.
Qed.

Lemma week_desc_sorted l :
  StronglySorted (fun a b => week_number b <= week_number a)
    (order_by week_desc_leb l).
Proof.
  apply Sorted_StronglySorted; [intros a b c; lia |].
  assert (H : Sorted (fun a b => week_desc_leb a b = true)
                (order_by week_desc_leb l)).
  { apply order_by_sorted. unfold week_desc_leb. intros a b Hab.
    apply Z.leb_gt in Hab. apply Z.leb_le. lia. }
  induction H as [| a l' Hs IH Hhd]; constructor; [exact IH |].
  destruct Hhd; constructor. apply Z.leb_le. assumption.
Qed.

Lemma winners_rows_qualified w db x :
  In x (winners (snd (getWinners w db))) -> status (row x) = QUALIFIED.
Proof.
  unfold getWinners. cbn [snd winners]. intros H.
  apply in_map_iff in H. destruct H as [r [<- Hr]]. cbn [row].
  unfold winners_query in Hr. apply limit_In in Hr.
  apply (Permutation_in _ (order_by_perm winner_leb _)) in Hr.
  apply filter_In in Hr. destruct Hr as [_ Hr].
  apply winner_eligible_spec in Hr. tauto.
Qed.

(** X5. Once a submission is selected as winner, it is listed by the
    weekly winners request, and it is no longer among the rows the
    winners ranking of any week returns: the ranking asks for the status
    QUALIFIED and the selection has replaced it by 'winner'. Selecting
    the same id again changes nothing more. *)
Theorem selected_winner_leaves_ranking (sid : Z) (db : DB) (r : Submission) :
  In r (submissions db) -> id r = sid ->
  let db' := fst (selectWinner true sid db) in
  In (set_winner r) (getWeeklyWinners db')
  /\ (forall w x, In x (winners (snd (getWinners w db'))) ->
        id (row x) <> sid)
  /\ fst (selectWinner true sid db') = db'.
Proof.
  intros Hin Hid. cbv zeta.
  destruct (selectWinner_found sid db r Hin Hid) as [r0 [Heq _]].
  rewrite Heq. cbn [fst].
  set (tbl := update_where (has_id sid) set_winner (submissions db)).
  assert (Hall : forall x, In x tbl -> id x = sid -> status x = "winner"%string).
  { intros x Hx Hxid. apply update_where_In in Hx.
    destruct Hx as [y [Hy ->]]. unfold has_id in *.
    destruct (Z.eqb_spec (id y) sid); [reflexivity | contradiction]. }
  split; [| split].
  - apply getWeeklyWinners_In. cbn [submissions]. split; [| reflexivity].
    apply update_where_In. exists r. split; [exact Hin |].
    unfold has_id. rewrite Hid, Z.eqb_refl. reflexivity.
  - intros w x Hx Hxid.
    pose proof (winners_rows_qualified _ _ _ Hx) as Hq.
    assert (In (row x) tbl) as Hrow.
    { unfold getWinners in Hx. cbn [snd winners] in Hx.
      apply in_map_iff in Hx. destruct Hx as [y [<- Hy]]. cbn [row].
      unfold winners_query in Hy. apply limit_In in Hy.
      apply (Permutation_in _ (order_by_perm winner_leb _)) in Hy.
      apply filter_In in Hy. tauto. }
    rewrite (Hall _ Hrow Hxid) in Hq. discriminate Hq.
  - assert (In (set_winner r) tbl) as Hin'.
    { apply update_where_In. exists r. split; [exact Hin |].
      unfold has_id. rewrite Hid, Z.eqb_refl. reflexivity. }
    destruct (selectWinner_found sid (mkDB tbl (user_votes db))
                (set_winner r) Hin' Hid) as [r1 [Heq1 _]].
    rewrite Heq1. cbn [fst submissions user_votes]. f_equal.
    unfold tbl. rewrite update_where_twice by reflexivity.
    unfold update_where. apply map_ext. intros x.
    destruct (has_id sid x); reflexivity.
Qed.

Lemma selected_winner_leaves_ranking_witness :
  map (fun x => id (row x)) (winners (snd (getWinners 1 winners_db))) = [3; 2]
  /\ In (set_winner (tallied 3 1 QUALIFIED 3 0)) (getWeeklyWinners after_selection)
  /\ (forall x, In x (winners (snd (getWinners 1 after_selection))) ->
        id (row x) <> 3).
Proof.
  pose proof (selected_winner_leaves_ranking 3 winners_db
                (tallied 3 1 QUALIFIED 3 0)) as H.
  destruct H as [H1 [H2 _]]; [simpl; tauto | reflexivity |].
  split; [reflexivity |]. split; [exact H1 | exact (H2 1)].
Defined.

(** ** GET /api/weekly-winners *)

(** X6. The weekly winners are the submissions with the winner flag,
    latest week first, and the list never loses an entry: whatever
    requests follow, a submission that was listed is listed, with the
    same id, owner and week. *)
Theorem weekly_winners_persist (insert_ok : DB -> UserVote -> bool)
    (qs : list Request) (db : DB) :
  (forall r, In r (getWeeklyWinners db) <->
             In r (submissions db) /\ is_winner r = true)
  /\ StronglySorted (fun a b => week_number b <= week_number a)
       (getWeeklyWinners db)
  /\ (forall r, In r (getWeeklyWinners db) ->
        exists r', In r' (getWeeklyWinners (serve insert_ok qs db))
                   /\ id r' = id r
                   /\ user_id r' = user_id r
                   /\ week_number r' = week_number r).
Proof.
  split; [intros r; apply getWeeklyWinners_In |].
  split; [apply week_desc_sorted |].
  intros r Hr. apply getWeeklyWinners_In in Hr. destruct Hr as [Hin Hw].
  destruct (table_grows_In _ _ r (serve_grows insert_ok qs db) Hin)
    as [r' [Hin' Hk]].
  destruct Hk as (Hid & Hu & Hwk & Hflag & _).
  exists r'. split; [apply getWeeklyWinners_In; auto | auto].
Qed.


Lemma weekly_winners_persist_witness :
  exists r', In r' (getWeeklyWinners (serve accept_all sample_trace after_selection))
             /\ id r' = 3.
Proof.
  pose proof (weekly_winners_persist accept_all sample_trace after_selection)
    as [_ [_ H]].
  destruct (H (set_winner (tallied 3 1 QUALIFIED 3 0))) as [r' [H1 [H2 _]]].
  - vm_compute. tauto.
  - exists r'. split; [exact H1 | exact H2].
Defined.

(** ** The ledger across requests *)

Lemma same_key_iff v w : same_key v w = true <-> vote_key v = vote_key w.
Proof.
  unfold same_key, vote_key. rewrite andb_true_iff, !Z.eqb_eq.
  split; [intros [-> ->]; reflexivity | intros H; injection H; auto].
Qed.

Lemma has_key_iff v votes :
  existsb (same_key v) votes = true <-> In (vote_key v) (map vote_key votes).
Proof.
  rewrite existsb_exists, in_map_iff. split.
  - intros [w [Hw Hk]]. exists w. apply same_key_iff in Hk. auto.
  - intros [w [Hk Hw]]. exists w. split; [exact Hw |].
    apply same_key_iff. auto.
Qed.

Lemma insert_vote_NoDup v votes :
  NoDup (map vote_key votes) -> NoDup (map vote_key (insert_vote v votes)).
Proof.
  intros H. unfold insert_vote.
  destruct (existsb (same_key v) votes) eqn:E; [exact H |].
  rewrite map_app. simpl.
  apply NoDup_app; [exact H | repeat constructor; intros [] |].
  intros k Hk [<- | []].
  apply has_key_iff in Hk. congruence.
Qed.

Lemma insert_vote_grows v votes :
  exists added, insert_vote v votes = votes ++ added.
Proof.
  unfold insert_vote. destruct (existsb _ _).
  - exists []. symmetry. apply app_nil_r.
  - exists [v]. reflexivity.
Qed.

Section Ledger.

Variable insert_ok : DB -> UserVote -> bool.

Lemma handle_votes q db :
  user_votes (handle insert_ok q db) = user_votes db
  \/ exists c, q = ReqVote c
       /\ user_votes (handle insert_ok q db)
          = insert_vote (vote_row c) (user_votes db).
Proof.
  destruct q as [now u ok | rnd rnd' u | c | w | a sid]; simpl.
  - left. unfold uploadPart. destruct (negb ok); [reflexivity |].
    destruct (_ =? 0); [reflexivity |]. destruct (_ =? 11); reflexivity.
  - left. rewrite batch_store. reflexivity.
  - destruct (insert_ok db (vote_row c)) eqn:Hok.
    + right. exists c. split; [reflexivity |]. apply castVote_votes. exact Hok.
    + left. rewrite castVote_rejected by exact Hok. reflexivity.
  - left. reflexivity.
  - left. unfold selectWinner. destruct (negb a); [reflexivity |].
    destruct (select_where _ _); reflexivity.
Qed.

Lemma serve_votes_NoDup qs db :
  NoDup (map vote_key (user_votes db)) ->
  NoDup (map vote_key (user_votes (serve insert_ok qs db))).
Proof.
  unfold serve. revert db.
  induction qs as [| q qs IH]; intros db H; simpl; [exact H |].
  apply IH. destruct (handle_votes q db) as [-> | [c [_ ->]]];
    [exact H | apply insert_vote_NoDup; exact H].
Qed.

Lemma serve_votes_grow qs db :
  exists added, user_votes (serve insert_ok qs db) = user_votes db ++ added.
Proof.
  unfold serve. revert db.
  induction qs as [| q qs IH]; intros db; simpl.
  - exists []. symmetry. apply app_nil_r.
  - destruct (IH (handle insert_ok q db)) as [a2 H2]. rewrite H2.
    destruct (handle_votes q db) as [-> | [c [_ ->]]].
    + exists a2. reflexivity.
    + destruct (insert_vote_grows (vote_row c) (user_votes db)) as [a1 ->].
      exists (a1 ++ a2). rewrite app_assoc. reflexivity.
Qed.

End Ledger.

Lemma voted_ids_NoDup u votes :
  NoDup (map vote_key votes) -> NoDup (voted_ids u votes).
Proof.
  unfold voted_ids. induction votes as [| v votes IH]; simpl; intros H;
    [constructor |].
  inversion H as [| ? ? Hnin Hnd]; subst.
  destruct (Z.eqb_spec (voter_id v) u) as [Hu | Hu]; simpl; [| auto].
  constructor; [| auto].
  intros Hin. apply Hnin. apply in_map_iff in Hin.
  destruct Hin as [w [Hs Hw]]. apply filter_In in Hw.
  destruct Hw as [Hw Hwu]. apply Z.eqb_eq in Hwu.
  apply in_map_iff. exists w. split; [| exact Hw].
  unfold vote_key. congruence.
Qed.

(** X8. The ledger holds at most one vote per (voter, submission) pair,
    and no request removes or rewrites a vote: after any sequence of
    requests the old ledger is a prefix of the new one and the pairs are
    still distinct. The vote count of a voter is then the number of
    distinct submission ids the voter has voted on. *)
Theorem ledger_keeps_one_vote_per_pair (insert_ok : DB -> UserVote -> bool)
    (qs : list Request) (db : DB) :
  NoDup (map vote_key (user_votes db)) ->
  let db' := serve insert_ok qs db in
  NoDup (map vote_key (user_votes db'))
  /\ (exists added, user_votes db' = user_votes db ++ added)
  /\ (forall u, NoDup (voted_ids u (user_votes db'))
                /\ cast_count u db'
                   = Z.of_nat (List.length (voted_ids u (user_votes db')))
                /\ cast_count u db <= cast_count u db').
Proof.
  intros H. cbv zeta.
  pose proof (serve_votes_NoDup insert_ok qs db H) as H'.
  destruct (serve_votes_grow insert_ok qs db) as [added Hadd].
  split; [exact H' |]. split; [exists added; exact Hadd |].
  intros u. split; [apply voted_ids_NoDup; exact H' |].
  split.
  - unfold cast_count, count_votes, voted_ids. rewrite length_map. reflexivity.
  - unfold cast_count, count_votes. rewrite Hadd, filter_app, length_app. lia.
Qed.

Lemma ledger_keeps_one_vote_per_pair_witness :
  NoDup (map vote_key (user_votes (serve accept_all sample_trace empty_db)))
  /\ cast_count 9 (serve accept_all sample_trace empty_db) = 1.
Proof.
  pose proof (ledger_keeps_one_vote_per_pair accept_all sample_trace empty_db)
    as H.
  destruct H as [H1 _]; [constructor |].
  split; [exact H1 | reflexivity].
Defined.

(** X9. A submission a voter has voted on is never offered to that
    voter again: after a vote the store took, and whatever requests
    follow, no batch of the voter holds a row with the id voted on. *)
Theorem voted_is_never_offered_again (insert_ok : DB -> UserVote -> bool)
    (c : VoteCall) (db : DB) (qs : list Request) (rnd rnd' : Z -> Z) :
  insert_ok db (vote_row c) = true ->
  let later := serve insert_ok qs (fst (castVote insert_ok c db)) in
  forall e, In e (entries (snd (getVotingBatch rnd rnd' (voterId c) later))) ->
            id e <> submissionId c.
Proof.
  intros Hok later e He Hid.
  apply batch_entries_candidates in He. apply candidate_In in He.
  destruct He as [_ [_ Hv]].
  assert (Hkey : existsb (same_key (vote_row c))
                   (user_votes (fst (castVote insert_ok c db))) = true).
  { rewrite castVote_votes by exact Hok. apply insert_vote_has_key. }
  apply existsb_exists in Hkey. destruct Hkey as [v [Hvin Hk]].
  unfold same_key in Hk. apply andb_true_iff in Hk.
  destruct Hk as [Hk1 Hk2]. apply Z.eqb_eq in Hk1, Hk2. simpl in Hk1, Hk2.
  destruct (serve_votes_grow insert_ok qs (fst (castVote insert_ok c db)))
    as [added Hadd].
  apply (Hv v).
  - unfold later. rewrite Hadd. apply in_or_app. left. exact Hvin.
  - congruence.
  - congruence.
Qed.

Lemma voted_is_never_offered_again_witness :
  Forall (fun e => id e <> 3)
    (entries (snd (getVotingBatch by_id by_id 9
       (serve accept_all sample_trace
          (fst (castVote accept_all
                  (mkVoteCall during_week_1 9 3 (JS.Num 1)) early_db)))))).
Proof.
  apply Forall_forall.
  exact (voted_is_never_offered_again accept_all
           (mkVoteCall during_week_1 9 3 (JS.Num 1)) early_db sample_trace
           by_id by_id eq_refl).
Defined.

(** ** The order of a batch *)

Lemma shown_leb_total rnd a b :
  shown_leb rnd a b = false -> shown_leb rnd b a = true.
Proof.
  unfold shown_leb. intros H. apply orb_false_iff in H. destruct H as [H1 H2].
  apply Z.ltb_ge in H1. apply orb_true_iff.
  destruct (Z.ltb_spec (times_shown b) (times_shown a)); [left; reflexivity |].
  right. assert (times_shown a = times_shown b) as Heq by lia.
  rewrite Heq, Z.eqb_refl in *. simpl in *.
  apply Z.leb_gt in H2. apply Z.leb_le. lia.
Qed.

Lemma shown_sorted rnd l :
  StronglySorted (fun a b => times_shown a <= times_shown b)
    (order_by (shown_leb rnd) l).
Proof.
  apply Sorted_StronglySorted; [intros a b c; lia |].
  pose proof (order_by_sorted (shown_leb rnd) (shown_leb_total rnd) l) as H.
  induction H as [| a l' Hs IH Hhd]; constructor; [exact IH |].
  destruct Hhd as [| b l'' Hab]; constructor.
  unfold shown_leb in Hab. apply orb_true_iff in Hab.
  destruct Hab as [Hab | Hab].
  - apply Z.ltb_lt in Hab. lia.
  - apply andb_true_iff in Hab. destruct Hab as [Hab _].
    apply Z.eqb_eq in Hab. lia.
Qed.

(** X10. A batch serves the least shown first: its entries are in
    ascending order of times_shown, and every candidate of the pool it
    was drawn from (the QUALIFIED candidates, or all candidates when none
    is QUALIFIED) that is left out has been shown at least as often as
    every entry; none is left out unless the batch is full. *)
Theorem batch_least_shown_first (rnd rnd' : Z -> Z) (userId : Z) (db : DB) :
  let es := entries (snd (getVotingBatch rnd rnd' userId db)) in
  let pool := match qualified_candidates userId db with
              | [] => all_candidates userId db
              | _ :: _ => qualified_candidates userId db
              end in
  StronglySorted (fun a b => times_shown a <= times_shown b) es
  /\ exists rest,
       Permutation (es ++ rest) pool
       /\ (forall e r, In e es -> In r rest -> times_shown e <= times_shown r)
       /\ (rest <> [] -> List.length es = 25%nat).
Proof.
  cbv zeta. rewrite batch_entries.
  assert (Hgen : forall (r0 : Z -> Z) (pool : list Submission),
    StronglySorted (fun a b => times_shown a <= times_shown b)
      (limit 25 (order_by (shown_leb r0) pool))
    /\ exists rest,
         Permutation (limit 25 (order_by (shown_leb r0) pool) ++ rest) pool
         /\ (forall e r, In e (limit 25 (order_by (shown_leb r0) pool)) ->
               In r rest -> times_shown e <= times_shown r)
         /\ (rest <> [] ->
             List.length (limit 25 (order_by (shown_leb r0) pool)) = 25%nat)).
  { intros r0 pool. pose proof (shown_sorted r0 pool) as Hs.
    unfold limit. rewrite <- (firstn_skipn 25 (order_by (shown_leb r0) pool)) in Hs.
    apply StronglySorted_app in Hs. destruct Hs as [Hs Hrest].
    split; [exact Hs |].
    exists (skipn 25 (order_by (shown_leb r0) pool)).
    split; [rewrite firstn_skipn; apply order_by_perm |].
    split; [exact Hrest |].
    intros Hne. apply firstn_length_le.
    destruct (le_lt_dec 25 (List.length (order_by (shown_leb r0) pool)))
      as [Hle | Hlt]; [exact Hle |].
    exfalso. apply Hne. apply skipn_all2. lia. }
  destruct (qualified_candidates userId db) as [| q qs] eqn:E.
  - apply Hgen.
  - unfold qualified_query. rewrite E. apply Hgen.
Qed.

Lemma batch_least_shown_first_witness :
  StronglySorted (fun a b => times_shown a <= times_shown b)
    (entries (snd (getVotingBatch by_id by_id 9 batch_db)))
  /\ List.length (entries (snd (getVotingBatch by_id by_id 9 batch_db))) = 1%nat.
Proof.
  pose proof (batch_least_shown_first by_id by_id 9 batch_db) as [H _].
  split; [exact H | reflexivity].
Defined.

(** ** POST /api/vote: missing rows and untouched columns *)

(** X11. A vote on an id no submission has is not refused: when the
    store takes the row and the pair is new, the call reports success, no
    tally of any submission changes, and the vote is in the ledger and
    counts towards the voter's quota. *)
Theorem vote_on_unknown_submission (insert_ok : DB -> UserVote -> bool)
    (c : VoteCall) (db : DB) :
  (forall r, In r (submissions db) -> id r <> submissionId c) ->
  insert_ok db (vote_row c) = true ->
  existsb (same_key (vote_row c)) (user_votes db) = false ->
  let out := castVote insert_ok c db in
  vote_success (snd out) = true
  /\ map tallies (submissions (fst out)) = map tallies (submissions db)
  /\ user_votes (fst out) = user_votes db ++ [vote_row c]
  /\ cast_count (voterId c) (fst out) = cast_count (voterId c) db + 1.
Proof.
  intros Hnone Hok Hnew. cbv zeta.
  split; [apply castVote_success; exact Hok |].
  split.
  - rewrite castVote_tallies by exact Hok.
    apply map_ext_in. intros r Hr. unfold has_id.
    destruct (Z.eqb_spec (id r) (submissionId c)) as [E | E];
      [exfalso; exact (Hnone r Hr E) | reflexivity].
  - unfold cast_count. rewrite castVote_votes by exact Hok.
    split; [apply insert_vote_new; exact Hnew |].
    rewrite count_votes_insert, Hnew. simpl. rewrite Z.eqb_refl. reflexivity.
Qed.

Lemma vote_on_unknown_submission_witness :
  vote_success (snd (castVote accept_all unknown_call early_db)) = true
  /\ cast_count 9 (fst (castVote accept_all unknown_call early_db)) = 2.
Proof.
  pose proof (vote_on_unknown_submission accept_all unknown_call early_db) as H.
  destruct H as [H1 [_ [_ H4]]].
  - intros r Hr. simpl in Hr.
    repeat (destruct Hr as [<- | Hr]; [discriminate |]). contradiction.
  - reflexivity.
  - reflexivity.
  - split; [exact H1 | exact H4].
Defined.

Lemma Forall2_map_r {A B : Type} (R : A -> B -> Prop) (g : A -> B) l :
  (forall x, In x l -> R x (g x)) -> Forall2 R l (map g l).
Proof.
  induction l as [| x l IH]; intros H; simpl; constructor.
  - apply H. left. reflexivity.
  - apply IH. intros y Hy. apply H. right. exact Hy.
Qed.

Lemma count_vote_frame c r :
  id (count_vote c r) = id r
  /\ week_number (count_vote c r) = week_number r
  /\ times_shown (count_vote c r) = times_shown r
  /\ is_winner (count_vote c r) = is_winner r.
Proof.
  unfold count_vote. destruct (JS.strict_eq_num _ _); repeat split.
Qed.

(** X12. A vote call writes nothing but received-vote tallies of the
    rows with the id voted on and votes_completed, status and
    qualified_at of the voter's own rows: every row keeps its id, owner,
    week, times_shown and winner flag; a row with another id keeps its
    tallies; a row of another user keeps votes_completed, status and
    qualified_at. *)
Theorem vote_leaves_the_rest (insert_ok : DB -> UserVote -> bool)
    (c : VoteCall) (db : DB) :
  Forall2 (vote_frame c) (submissions db)
    (submissions (fst (castVote insert_ok c db))).
Proof.
  assert (Hrefl : forall l, Forall2 (vote_frame c) l l).
  { intros l. rewrite <- (map_id l) at 2. apply Forall2_map_r.
    intros x _. unfold vote_frame. repeat split. }
  destruct (insert_ok db (vote_row c)) eqn:Hok;
    [| rewrite castVote_rejected by exact Hok; apply Hrefl].
  assert (Hgen : forall F : Submission -> Submission,
    (forall r, id (F r) = id r /\ user_id (F r) = user_id r
               /\ week_number (F r) = week_number r
               /\ times_shown (F r) = times_shown r
               /\ is_winner (F r) = is_winner r
               /\ tallies (F r) = tallies r) ->
    Forall2 (vote_frame c) (submissions db)
      (update_where (owned_by (voterId c)) F (counted c (submissions db)))).
  { intros F HF. unfold counted, update_where. rewrite map_map.
    apply Forall2_map_r. intros r _.
    pose proof (count_vote_frame c r) as (C1 & C2 & C3 & C4).
    pose proof (count_vote_user_id c r) as C5.
    pose proof (count_vote_tracked c r) as C6.
    unfold has_id, owned_by.
    destruct (Z.eqb_spec (id r) (submissionId c)) as [Ei | Ei].
    - rewrite C5.
      destruct (Z.eqb_spec (user_id r) (voterId c)) as [Eu | Eu].
      + destruct (HF (count_vote c r)) as (F1 & F2 & F3 & F4 & F5 & F6).
        unfold vote_frame; repeat split; intros;
          try congruence; try contradiction.
      + unfold vote_frame; repeat split; intros;
          try congruence; try contradiction.
    - destruct (Z.eqb_spec (user_id r) (voterId c)) as [Eu | Eu].
      + destruct (HF r) as (F1 & F2 & F3 & F4 & F5 & F6).
        unfold vote_frame; repeat split; intros;
          try congruence; try contradiction.
      + unfold vote_frame; repeat split. }
  rewrite (castVote_accepted _ _ _ Hok). cbv zeta.
  destruct (select_where _ _).
  - cbn [fst submissions]. unfold counted, update_where.
    apply Forall2_map_r. intros r _.
    pose proof (count_vote_frame c r) as (C1 & C2 & C3 & C4).
    pose proof (count_vote_user_id c r) as C5.
    pose proof (count_vote_tracked c r) as C6.
    unfold has_id.
    destruct (Z.eqb_spec (id r) (submissionId c)) as [Ei | Ei];
      unfold vote_frame; repeat split; intros;
      try congruence; try contradiction.
  - destruct (_ && _); cbn [fst submissions]; apply Hgen; intros r;
      repeat split.
Qed.

(** ** GET /api/submission/status/:userId *)

Section StatusFacts.

Variable created_at : Z -> Z.

Lemma newest_sorted l :
  StronglySorted (fun a b => created_at (id b) <= created_at (id a))
    (order_by (newest_leb created_at) l).
Proof.
  apply Sorted_StronglySorted; [intros a b c; lia |].
  assert (H : Sorted (fun a b => newest_leb created_at a b = true)
                (order_by (newest_leb created_at) l)).
  { apply order_by_sorted. unfold newest_leb. intros a b Hab.
    apply Z.leb_gt in Hab. apply Z.leb_le. lia. }
  induction H as [| a l' Hs IH Hhd]; constructor; [exact IH |].
  destruct Hhd; constructor. apply Z.leb_le. assumption.
Qed.

(** The status request returns nothing for a user without a submission
    and the newest submission of the user otherwise. *)
Lemma getSubmissionStatus_cases u db :
  (owned u db = []
   /\ getSubmissionStatus created_at u db = mkStatusResponse true None 0)
  \/ (exists s,
        In s (owned u db)
        /\ (forall r, In r (owned u db) ->
              created_at (id r) <= created_at (id s))
        /\ getSubmissionStatus created_at u db
           = mkStatusResponse true (Some s) (cast_count u db)).
Proof.
  unfold getSubmissionStatus, owned.
  pose proof (newest_sorted (select_where (owned_by u) (submissions db))) as Hs.
  pose proof (order_by_perm (newest_leb created_at)
                (select_where (owned_by u) (submissions db))) as Hp.
  destruct (order_by (newest_leb created_at)
              (select_where (owned_by u) (submissions db))) as [| s l] eqn:E.
  - left. apply Permutation_nil in Hp. rewrite Hp. split; reflexivity.
  - right. exists s. cbn [limit firstn].
    split; [apply (Permutation_in _ Hp); left; reflexivity |].
    split; [| reflexivity].
    intros r Hr. apply (Permutation_in _ (Permutation_sym Hp)) in Hr.
    inversion Hs as [| ? ? _ Hall]; subst.
    destruct Hr as [<- | Hr]; [lia |].
    rewrite Forall_forall in Hall. apply Hall. exact Hr.
Qed.

End StatusFacts.

(** X13. Right after a vote the store took, the status request of the
    voter reports the votesCompleted the vote call reported. For a voter
    without a submission both say 0 and the status has no submission,
    although the vote is in the ledger; for a voter with submissions both
    give the voter's count of votes in the ledger, the status carries the
    newest submission of the voter, and its votes_completed column holds
    the same number. *)
Theorem status_agrees_with_vote (created_at : Z -> Z)
    (insert_ok : DB -> UserVote -> bool) (c : VoteCall) (db : DB) :
  insert_ok db (vote_row c) = true ->
  let out := castVote insert_ok c db in
  let st := getSubmissionStatus created_at (voterId c) (fst out) in
  (exists q, snd out = VoteOk (status_votesCompleted st) 25 q)
  /\ existsb (same_key (vote_row c)) (user_votes (fst out)) = true
  /\ (owned (voterId c) db = [] ->
      status_submission st = None /\ status_votesCompleted st = 0)
  /\ (owned (voterId c) db <> [] ->
      exists s,
        status_submission st = Some s
        /\ In s (owned (voterId c) (fst out))
        /\ (forall r, In r (owned (voterId c) (fst out)) ->
              created_at (id r) <= created_at (id s))
        /\ votes_completed s = status_votesCompleted st
        /\ status_votesCompleted st = cast_count (voterId c) (fst out)).
Proof.
  intros Hok. cbv zeta.
  pose proof (castVote_owned_ids insert_ok (voterId c) c db) as Hids.
  assert (Hkey : existsb (same_key (vote_row c))
                   (user_votes (fst (castVote insert_ok c db))) = true).
  { rewrite castVote_votes by exact Hok. apply insert_vote_has_key. }
  destruct (owned (voterId c) db) as [| first rest] eqn:Hsel.
  - (* no submission of the voter *)
    assert (Hnone : owned (voterId c) (fst (castVote insert_ok c db)) = []).
    { destruct (owned _ (fst _)); [reflexivity | discriminate Hids]. }
    destruct (getSubmissionStatus_cases created_at (voterId c)
                (fst (castVote insert_ok c db))) as [[_ Hst] | [s [Hs _]]];
      [| rewrite Hnone in Hs; contradiction].
    rewrite Hst. cbn [status_votesCompleted status_submission].
    split.
    { rewrite (castVote_accepted _ _ _ Hok). cbv zeta.
      unfold owned in Hsel. rewrite Hsel. exists false. reflexivity. }
    split; [exact Hkey |].
    split; [intros _; split; reflexivity | intros H; contradiction].
  - pose proof (castVote_own_tracked insert_ok c db first rest Hok Hsel) as Ht.
    cbv zeta in Ht.
    destruct (getSubmissionStatus_cases created_at (voterId c)
                (fst (castVote insert_ok c db))) as [[Hnone _] | [s [Hs [Hnew Hst]]]].
    { rewrite Hnone in Hids. discriminate Hids. }
    rewrite Hst. cbn [status_votesCompleted status_submission].
    assert (Hresp : exists q, snd (castVote insert_ok c db)
                      = VoteOk (cast_count (voterId c)
                                  (fst (castVote insert_ok c db))) 25 q).
    { unfold cast_count. rewrite (castVote_accepted _ _ _ Hok). cbv zeta.
      unfold owned in Hsel. rewrite Hsel.
      destruct ((count_votes (voterId c)
                   (insert_vote (vote_row c) (user_votes db)) >=? 25)
                && (status first =? PENDING)%string);
        cbn [fst snd user_votes]; eexists; reflexivity. }
    assert (Hvc : Forall
      (fun r => votes_completed r
                = cast_count (voterId c) (fst (castVote insert_ok c db)))
      (owned (voterId c) (fst (castVote insert_ok c db)))).
    { destruct (_ && _); destruct Ht as [_ Ht];
        apply (map_eq_Forall tracked _
                 (fun t => fst (fst t)
                           = cast_count (voterId c)
                               (fst (castVote insert_ok c db))) _ _ Ht);
        apply Forall_forall; intros; reflexivity. }
    split; [exact Hresp |]. split; [exact Hkey |].
    split; [intros H; discriminate H |].
    intros _. exists s. split; [reflexivity |]. split; [exact Hs |].
    split; [exact Hnew |]. split; [| reflexivity].
    rewrite Forall_forall in Hvc. apply Hvc. exact Hs.
Qed.

Lemma status_agrees_with_vote_witness :
  status_votesCompleted
    (getSubmissionStatus created_by_id 7
       (fst (castVote accept_all quota_call (two_owned_db PENDING PENDING))))
  = 25
  /\ status_submission
       (getSubmissionStatus created_by_id 8
          (fst (castVote accept_all (mkVoteCall during_week_1 8 3 (JS.Num 1))
                  (two_owned_db PENDING PENDING))))
     = None.
Proof.
  pose proof (status_agrees_with_vote created_by_id accept_all quota_call
                (two_owned_db PENDING PENDING) eq_refl) as [_ [_ [_ H]]].
  pose proof (status_agrees_with_vote created_by_id accept_all
                (mkVoteCall during_week_1 8 3 (JS.Num 1))
                (two_owned_db PENDING PENDING) eq_refl) as [_ [_ [H0 _]]].
  split.
  - destruct H as [s [_ [_ [_ [_ Hn]]]]]; [vm_compute; discriminate |].
    exact Hn.
  - apply H0. reflexivity.
Defined.

(** ** Qualification is earned *)

Section Earned.

Variable insert_ok : DB -> UserVote -> bool.

Lemma castVote_earned c db :
  Forall (earned (user_votes db)) (submissions db) ->
  Forall (earned (user_votes (fst (castVote insert_ok c db))))
    (submissions (fst (castVote insert_ok c db))).
Proof.
  intros H. destruct (insert_ok db (vote_row c)) eqn:Hok;
    [| rewrite castVote_rejected by exact Hok; exact H].
  rewrite (castVote_accepted _ _ _ Hok). cbv zeta.
  set (votes' := insert_vote (vote_row c) (user_votes db)).
  set (n := count_votes (voterId c) votes').
  assert (Hmono : forall u, count_votes u (user_votes db) <= count_votes u votes').
  { intros u. unfold votes'. rewrite count_votes_insert.
    destruct (_ && _); lia. }
  assert (Hcount : Forall (earned votes') (counted c (submissions db))).
  { unfold counted, update_where. apply Forall_map.
    eapply Forall_impl; [| exact H]. intros r [Hq Hv]. cbv beta.
    assert (earned votes' r) as Hr.
    { split; [intros Hs; specialize (Hq Hs) |]; specialize (Hmono (user_id r)); lia. }
    destruct (has_id _ r); [| exact Hr].
    unfold earned. rewrite count_vote_user_id, count_vote_status.
    pose proof (count_vote_tracked c r) as Ht. unfold tracked in Ht.
    injection Ht as Hvc _ _. rewrite Hvc. exact Hr. }
  destruct (select_where _ _) as [| first rest]; [exact Hcount |].
  destruct (Z.geb_spec n 25) as [Hn | Hn];
    destruct (status first =? PENDING)%string;
    cbn [andb fst submissions user_votes];
    unfold update_where; apply Forall_map;
    (eapply Forall_impl; [| exact Hcount]); intros r [Hq Hv]; cbv beta;
    unfold owned_by;
    (destruct (Z.eqb_spec (user_id r) (voterId c)) as [Eu | Eu];
     [| split; assumption]);
    unfold earned; simpl; rewrite Eu; fold n;
    pose proof (count_votes_nonneg (voterId c) votes');
    (split; [intros Hs; try lia; rewrite Eu in Hq; apply Hq; exact Hs
            | fold n in H0; lia]).
Qed.

Lemma handle_earned q db :
  Forall (earned (user_votes db)) (submissions db) ->
  Forall (earned (user_votes (handle insert_ok q db)))
    (submissions (handle insert_ok q db)).
Proof.
  intros H. destruct q as [now u ok | rnd rnd' u | c | w | a sid]; simpl.
  - unfold uploadPart. destruct (negb ok); [exact H |].
    destruct (_ =? 0); [exact H |]. destruct (_ =? 11); [exact H |].
    cbn [fst submissions user_votes]. apply Forall_app. split; [exact H |].
    constructor; [| constructor]. split; [discriminate |]. simpl.
    pose proof (count_votes_nonneg u (user_votes db)). lia.
  - rewrite batch_store. cbn [submissions user_votes].
    apply mark_shown_Forall; [| exact H]. intros r Hr. exact Hr.
  - apply castVote_earned. exact H.
  - exact H.
  - unfold selectWinner. destruct (negb a); [exact H |].
    destruct (select_where _ _); [exact H |].
    cbn [fst submissions user_votes]. apply update_where_Forall; [| exact H].
    intros r [_ Hv]. split; [discriminate | exact Hv].
Qed.

Lemma serve_earned qs db :
  Forall (earned (user_votes db)) (submissions db) ->
  Forall (earned (user_votes (serve insert_ok qs db)))
    (submissions (serve insert_ok qs db)).
Proof.
  unfold serve. revert db.
  induction qs as [| q qs IH]; intros db H; simpl; [exact H |].
  apply IH. apply handle_earned. exact H.
Qed.

End Earned.

(** X14. Qualification is backed by the ledger. In every store the
    server reaches from the empty one, the owner of a QUALIFIED
    submission has 25 votes or more in the ledger, and votes_completed of
    a submission is between 0 and its owner's number of votes; so the
    owner of every row of a winners ranking has cast 25 votes or more. *)
Theorem qualification_is_earned (insert_ok : DB -> UserVote -> bool)
    (qs : list Request) :
  let db := serve insert_ok qs empty_db in
  Forall (fun r =>
            (status r = QUALIFIED -> 25 <= cast_count (user_id r) db)
            /\ 0 <= votes_completed r <= cast_count (user_id r) db)
    (submissions db)
  /\ forall w,
       Forall (fun x => 25 <= cast_count (user_id (row x)) db)
         (winners (snd (getWinners w db))).
Proof.
  cbv zeta.
  assert (H : Forall (earned (user_votes (serve insert_ok qs empty_db)))
                (submissions (serve insert_ok qs empty_db))).
  { apply serve_earned. constructor. }
  split; [exact H |].
  intros w. apply Forall_forall. intros x Hx.
  pose proof (winners_rows_qualified _ _ _ Hx) as Hq.
  assert (In (row x) (submissions (serve insert_ok qs empty_db))) as Hrow.
  { unfold getWinners in Hx. cbn [snd winners] in Hx.
    apply in_map_iff in Hx. destruct Hx as [y [<- Hy]]. cbn [row].
    unfold winners_query in Hy. apply limit_In in Hy.
    apply (Permutation_in _ (order_by_perm winner_leb _)) in Hy.
    apply filter_In in Hy. tauto. }
  rewrite Forall_forall in H. destruct (H _ Hrow) as [He _].
  apply He. exact Hq.
Qed.

(** * Strings *)

Module JSStringFacts.

Import JSString.

Lemma lower_char_idem c : lower_char (lower_char c) = lower_char c.
Proof.
  destruct c as [[] [] [] [] [] [] [] []]; vm_compute; reflexivity.
Qed.

Lemma toLowerCase_idem s : toLowerCase (toLowerCase s) = toLowerCase s.
Proof.
  induction s as [| c s IH]; simpl; [reflexivity |].
  rewrite lower_char_idem, IH. reflexivity.
Qed.

Lemma toLowerCase_app a b :
  toLowerCase (a ++ b)%string = (toLowerCase a ++ toLowerCase b)%string.
Proof.
  induction a as [| c a IH]; simpl; [reflexivity |]. rewrite IH. reflexivity.
Qed.

Lemma prefix_app n b : String.prefix n (n ++ b)%string = true.
Proof.
  induction n as [| c n IH]; simpl; [destruct b; reflexivity |].
  destruct (Ascii.ascii_dec c c); [exact IH | contradiction].
Qed.

Lemma prefix_split n s :
  String.prefix n s = true -> exists b, s = (n ++ b)%string.
Proof.
  revert s. induction n as [| c n IH]; intros s H.
  - exists s. reflexivity.
  - destruct s as [| d s]; simpl in H; [discriminate |].
    destruct (Ascii.ascii_dec c d) as [-> | _]; [| discriminate].
    destruct (IH s H) as [b ->]. exists b. reflexivity.
Qed.

Lemma includes_unfold s n :
  includes s n
  = String.prefix n s
    || match s with
       | EmptyString => false
       | String _ s' => includes s' n
       end.
Proof. destruct s; reflexivity. Qed.

(** [includes] is the substring test. *)
Lemma includes_iff s n :
  includes s n = true <-> exists a b, s = (a ++ n ++ b)%string.
Proof.
  split.
  - induction s as [| c s IH]; rewrite includes_unfold; intros H;
      apply orb_true_iff in H; destruct H as [H | H]; try discriminate.
    + apply prefix_split in H. destruct H as [b Hb].
      exists EmptyString, b. exact Hb.
    + apply prefix_split in H. destruct H as [b Hb].
      exists EmptyString, b. exact Hb.
    + destruct (IH H) as [a [b ->]]. exists (String c a), b. reflexivity.
  - intros [a [b ->]]. induction a as [| c a IH].
    + rewrite includes_unfold. simpl append. rewrite prefix_app. reflexivity.
    + change (String c a ++ n ++ b)%string
        with (String c (a ++ n ++ b)%string).
      rewrite (includes_unfold (String c _)). rewrite IH. apply orb_true_r.
Qed.

Lemma includes_lower a k b kw :
  toLowerCase k = kw ->
  includes (toLowerCase (a ++ k ++ b)%string) kw = true.
Proof.
  intros <-. apply includes_iff.
  exists (toLowerCase a), (toLowerCase b).
  rewrite !toLowerCase_app. reflexivity.
Qed.

(** [split] cuts at the first separator. *)
Lemma split_cons sep s : exists w ws, split sep s = w :: ws.
Proof.
  induction s as [| c s [w [ws IH]]]; simpl; [eauto |].
  destruct (Ascii.eqb c sep); [eauto |]. rewrite IH. eauto.
Qed.

Lemma split_first sep a b :
  has_char sep a = false ->
  split sep (a ++ String sep b)%string = a :: split sep b.
Proof.
  induction a as [| c a IH]; simpl; intros H.
  - rewrite Ascii.eqb_refl. reflexivity.
  - apply orb_false_iff in H. destruct H as [Hc Ha].
    rewrite Hc, (IH Ha). reflexivity.
Qed.

Lemma split_none sep a : has_char sep a = false -> split sep a = [a].
Proof.
  induction a as [| c a IH]; simpl; intros H; [reflexivity |].
  apply orb_false_iff in H. destruct H as [Hc Ha].
  rewrite Hc, (IH Ha). reflexivity.
Qed.

End JSStringFacts.

(** * aiPromptService *)

Lemma pushed_incl l a : In a (pushed l) -> In a (map snd l).
Proof.
  unfold pushed. intros H. apply in_flat_map in H.
  destruct H as [[b x] [Hin Hx]]. simpl in Hx.
  destruct b; simpl in Hx; [| contradiction].
  destruct Hx as [<- | []]. apply (in_map snd) in Hin. exact Hin.
Qed.

Lemma pushed_In l a : In (true, a) l -> In a (pushed l).
Proof.
  intros H. unfold pushed. apply in_flat_map.
  exists (true, a). split; [exact H | left; reflexivity].
Qed.

Lemma pushed_NoDup l : NoDup (map snd l) -> NoDup (pushed l).
Proof.
  induction l as [| [b a] l IH]; simpl; intros H; [constructor |].
  inversion H as [| ? ? Hnin Hnd]; subst.
  destruct b; simpl; [| auto].
  constructor; [| auto]. intros Hin. apply Hnin.
  apply pushed_incl. exact Hin.
Qed.

Lemma pushed_length l : (List.length (pushed l) <= List.length l)%nat.
Proof.
  induction l as [| [b a] l IH]; simpl; [lia |].
  destruct b; simpl; lia.
Qed.

Lemma pushed_nil l : pushed l = [] <-> Forall (fun ba => fst ba = false) l.
Proof.
  induction l as [| [b a] l IH]; simpl.
  - split; [constructor | reflexivity].
  - destruct b; simpl.
    + split; [discriminate | intros H; inversion H; discriminate].
    + rewrite IH. split; [intros H; constructor; auto |
                          intros H; inversion H; assumption].
Qed.

Lemma ruleBasedFallback_pushed p :
  ruleBasedFallback p
  = match pushed (fallback_flags p) with
    | [] => [default_action]
    | _ :: _ => pushed (fallback_flags p)
    end.
Proof.
  unfold ruleBasedFallback, pushed, fallback_flags.
  cbn [flat_map fst snd]. rewrite app_nil_r. reflexivity.
Qed.

Lemma fallback_flags_actions p : map snd (fallback_flags p) = rule_actions.
Proof. reflexivity. Qed.

Lemma rule_actions_NoDup : NoDup (default_action :: rule_actions).
Proof.
  unfold rule_actions.
  repeat (constructor; [simpl; intuition discriminate |]). constructor.
Qed.

(** X15. The fallback mapper never answers with an empty list: it
    returns between one and seven actions, without repetition, all taken
    from eight fixed actions whatever colour or value the prompt asks
    for; the yellow default is returned exactly when no rule fires, and
    then alone. *)
Theorem fallback_actions_are_fixed (prompt : string) :
  let actions := ruleBasedFallback prompt in
  let has := JSString.includes (JSString.toLowerCase prompt) in
  actions <> []
  /\ (1 <= List.length actions <= 7)%nat
  /\ NoDup actions
  /\ (forall a, In a actions -> In a (default_action :: rule_actions))
  /\ (In default_action actions <-> actions = [default_action])
  /\ (actions = [default_action] <->
      has "matte"%string && has "black"%string = false
      /\ has "roof"%string = false
      /\ has "sport rim"%string || has "sport wheel"%string = false
      /\ has "offroad"%string = false
      /\ has "underglow"%string || has "neon"%string = false
      /\ has "lift"%string = false
      /\ has "window"%string && (has "dark"%string || has "tint"%string)
         = false).
Proof.
  cbv zeta. rewrite ruleBasedFallback_pushed.
  pose proof (pushed_length (fallback_flags prompt)) as Hlen.
  pose proof (pushed_NoDup (fallback_flags prompt)) as Hnd.
  rewrite fallback_flags_actions in Hnd.
  pose proof rule_actions_NoDup as Hall. inversion Hall as [| ? ? Hdef Hrules]; subst.
  specialize (Hnd Hrules).
  assert (Hincl : forall a, In a (pushed (fallback_flags prompt)) ->
                            In a rule_actions).
  { intros a Ha. rewrite <- (fallback_flags_actions prompt).
    apply pushed_incl. exact Ha. }
  pose proof (pushed_nil (fallback_flags prompt)) as Hnil.
  assert (Hflags : Forall (fun ba => fst ba = false) (fallback_flags prompt)
    <-> (let has := JSString.includes (JSString.toLowerCase prompt) in
         has "matte"%string && has "black"%string = false
         /\ has "roof"%string = false
         /\ has "sport rim"%string || has "sport wheel"%string = false
         /\ has "offroad"%string = false
         /\ has "underglow"%string || has "neon"%string = false
         /\ has "lift"%string = false
         /\ has "window"%string && (has "dark"%string || has "tint"%string)
            = false)).
  { unfold fallback_flags. cbv zeta. split.
    - intros H. repeat (inversion H as [| ? ? ? H']; subst; clear H;
                        rename H' into H). cbn [fst] in *. tauto.
    - intros (H1 & H2 & H3 & H4 & H5 & H6 & H7).
      repeat (constructor; [assumption |]). constructor. }
  cbv zeta in Hflags.
  destruct (pushed (fallback_flags prompt)) as [| a l] eqn:E.
  - split; [discriminate |]. split; [simpl; lia |].
    split; [repeat constructor; intros [] |].
    split; [intros a [<- | []]; left; reflexivity |].
    split; [split; [reflexivity | intros _; left; reflexivity] |].
    split; [intros _; apply Hflags, Hnil; reflexivity | reflexivity].
  - split; [discriminate |].
    split; [simpl in *; lia |].
    split; [exact Hnd |].
    split; [intros x Hx; right; apply Hincl; exact Hx |].
    assert (Hno : ~ In default_action (a :: l)).
    { intros H. apply Hdef. apply Hincl. exact H. }
    split.
    + split; [intros H; contradiction |].
      intros H. exfalso. apply Hno. rewrite H. left. reflexivity.
    + split.
      * intros H. exfalso. apply Hno. rewrite H. left. reflexivity.
      * intros H. apply Hflags, Hnil in H. discriminate H.
Qed.

Lemma fallback_actions_are_fixed_witness :
  ruleBasedFallback "paint it red"%string = [default_action]
  /\ NoDup (ruleBasedFallback "Neon underglow on the ROOF"%string).
Proof.
  pose proof (fallback_actions_are_fixed "paint it red"%string)
    as [_ [_ [_ [_ [_ Hdef]]]]].
  pose proof (fallback_actions_are_fixed "Neon underglow on the ROOF"%string)
    as [_ [_ [Hnd _]]].
  split; [apply Hdef; repeat split | exact Hnd].
Defined.

(** X16. A rule with one keyword fires wherever the keyword stands in
    the prompt, inside a longer word too, and in any letter case; the
    answer is then not the default. The mapper reads the lowered prompt
    only. *)
Theorem keywords_fire_anywhere (kw : string) (act : Action)
    (a k b : string) :
  In (kw, act) keyword_rules ->
  JSString.toLowerCase k = kw ->
  In act (ruleBasedFallback (a ++ k ++ b)%string)
  /\ ~ In default_action (ruleBasedFallback (a ++ k ++ b)%string)
  /\ ruleBasedFallback (JSString.toLowerCase (a ++ k ++ b)%string)
     = ruleBasedFallback (a ++ k ++ b)%string.
Proof.
  intros Hrule Hk.
  pose proof (JSStringFacts.includes_lower a k b kw Hk) as Hinc.
  assert (Hin : In act (pushed (fallback_flags (a ++ k ++ b)%string))).
  { apply pushed_In. unfold fallback_flags. cbv zeta.
    unfold keyword_rules in Hrule. simpl in Hrule.
    repeat (destruct Hrule as [Hr | Hrule];
            [injection Hr as <- <-; rewrite Hinc;
             rewrite ?orb_true_r; simpl; tauto |]).
    contradiction. }
  assert (Hact : In act rule_actions).
  { rewrite <- (fallback_flags_actions (a ++ k ++ b)%string).
    apply pushed_incl. exact Hin. }
  split; [| split].
  - rewrite ruleBasedFallback_pushed.
    destruct (pushed _); [contradiction | exact Hin].
  - rewrite ruleBasedFallback_pushed.
    destruct (pushed (fallback_flags (a ++ k ++ b)%string)) as [| x l] eqn:E;
      [contradiction |].
    intros Hd. pose proof rule_actions_NoDup as Hall.
    inversion Hall as [| ? ? Hdef _]; subst. apply Hdef.
    rewrite <- (fallback_flags_actions (a ++ k ++ b)%string).
    apply pushed_incl. rewrite E. exact Hd.
  - unfold ruleBasedFallback. rewrite JSStringFacts.toLowerCase_idem.
    reflexivity.
Qed.

Lemma keywords_fire_anywhere_witness :
  In lifted (ruleBasedFallback "give it a FaceLift please"%string).
Proof.
  exact (proj1 (keywords_fire_anywhere "lift"%string lifted
                  "give it a Face"%string "Lift"%string " please"%string
                  ltac:(simpl; tauto) eq_refl)).
Defined.

Lemma ruleBasedFallback_nonempty p : ruleBasedFallback p <> [].
Proof.
  rewrite ruleBasedFallback_pushed. destruct (pushed _); discriminate.
Qed.



(** * partBuilderService *)



(** * authenticateToken *)

Section AuthFacts.

Context {User : Type}.
Variable verify : string -> option User.

Lemma header_token_second scheme token rest :
  JSString.has_char JSString.space scheme = false ->
  JSString.has_char JSString.space token = false ->
  header_token (Some (scheme ++ String JSString.space token)%string)
    = Some token
  /\ header_token
       (Some (scheme ++ String JSString.space
                          (token ++ String JSString.space rest))%string)
     = Some token.
Proof.
  intros Hs Ht. unfold header_token.
  assert (Hne : forall x, (scheme ++ String JSString.space x =? EmptyString)%string
                          = false).
  { intros x. apply String.eqb_neq. destruct scheme; discriminate. }
  rewrite !Hne, !JSStringFacts.split_first by assumption.
  rewrite JSStringFacts.split_none by exact Ht. split; reflexivity.
Qed.

End AuthFacts.

(** X19. The token check reads the second space-separated field of the
    Authorization header and nothing else: the word before the first
    space is not looked at (it need not be Bearer, and may be empty) and
    whatever follows a second space is dropped. An absent header, one
    without a space, and one whose second field is empty (two spaces in a
    row, or a space at the end) are answered 401 without the verifier
    being consulted; a token the verifier rejects is answered 403. *)
Theorem token_is_the_second_field {User : Type}
    (verify : string -> option User) (scheme token rest : string) :
  JSString.has_char JSString.space scheme = false ->
  JSString.has_char JSString.space token = false ->
  token <> EmptyString ->
  let result := match verify token with
                | Some user => AuthNext user
                | None => AuthInvalid
                end in
  authenticateToken verify
    (Some (scheme ++ String JSString.space token)%string) = result
  /\ authenticateToken verify
       (Some (scheme ++ String JSString.space
                (token ++ String JSString.space rest))%string) = result
  /\ authenticateToken verify None = AuthNoToken
  /\ authenticateToken verify (Some scheme) = AuthNoToken
  /\ authenticateToken verify
       (Some (scheme ++ String JSString.space
                (String JSString.space rest))%string) = AuthNoToken
  /\ authenticateToken verify
       (Some (scheme ++ String JSString.space EmptyString)%string)
     = AuthNoToken.
Proof.
  intros Hs Ht Hne. cbv zeta.
  destruct (header_token_second scheme token rest Hs Ht) as [H1 H2].
  assert (Htok : (token =? EmptyString)%string = false)
    by (apply String.eqb_neq; exact Hne).
  assert (Hnz : forall x, (scheme ++ String JSString.space x =? EmptyString)%string
                          = false).
  { intros x. apply String.eqb_neq. destruct scheme; discriminate. }
  unfold authenticateToken.
  split; [rewrite H1, Htok; destruct (verify token); reflexivity |].
  split; [rewrite H2, Htok; destruct (verify token); reflexivity |].
  split; [reflexivity |].
  split.
  { unfold header_token. destruct (String.eqb_spec scheme EmptyString);
      [reflexivity |].
    rewrite JSStringFacts.split_none by exact Hs. reflexivity. }
  split.
  { unfold header_token. rewrite Hnz.
    rewrite JSStringFacts.split_first by exact Hs.
    change (String JSString.space rest)
      with (EmptyString ++ String JSString.space rest)%string.
    rewrite JSStringFacts.split_first by reflexivity. reflexivity. }
  unfold header_token. rewrite Hnz.
  rewrite JSStringFacts.split_first by exact Hs. reflexivity.
Qed.

Lemma token_is_the_second_field_witness :
  authenticateToken (fun t => if (t =? "good")%string then Some 7 else None)
    (Some "Basic good and more"%string) = AuthNext 7
  /\ authenticateToken (fun t => if (t =? "good")%string then Some 7 else None)
       (Some "Bearer  good"%string) = AuthNoToken.
Proof.
  pose proof (token_is_the_second_field
                (fun t => if (t =? "good")%string then Some 7 else None)
                "Basic"%string "good"%string "and more"%string
                eq_refl eq_refl ltac:(discriminate)) as [_ [H _]].
  pose proof (token_is_the_second_field
                (fun t => if (t =? "good")%string then Some 7 else None)
                "Bearer"%string "x"%string "good"%string
                eq_refl eq_refl ltac:(discriminate)) as [_ [_ [_ [_ [H' _]]]]].
  split; [exact H | exact H'].
Defined.

(** * The anonymous id of an upload *)

Module JSNumberFacts.

Import JSNumber.

Lemma digits_fuel f f' n :
  0 <= n < 10 ^ Z.of_nat (S f) -> 0 <= n < 10 ^ Z.of_nat (S f') ->
  digits (S f) n = digits (S f') n.
Proof.
  revert f' n. induction f as [| f IH]; intros f' n Hf Hf'.
  - change (10 ^ Z.of_nat 1) with 10 in Hf. simpl.
    destruct (Z.ltb_spec n 10); [reflexivity | lia].
  - cbn [digits]. destruct (Z.ltb_spec n 10) as [Hlt | Hge]; [reflexivity |].
    destruct f' as [| f'].
    { change (10 ^ Z.of_nat 1) with 10 in Hf'. lia. }
    f_equal. cbn [digits] in IH.
    assert (Hdiv : forall g, 0 <= n < 10 ^ Z.of_nat (S (S g)) ->
                             0 <= n / 10 < 10 ^ Z.of_nat (S g)).
    { intros g Hg. split; [apply Z.div_pos; lia |].
      apply Z.div_lt_upper_bound; [lia |].
      rewrite (Nat2Z.inj_succ (S g)), Z.pow_succ_r in Hg by lia. lia. }
    change (digits (S f) (n / 10) = digits (S f') (n / 10)).
    apply IH; apply Hdiv; assumption.
Qed.

Lemma toString_fuel n :
  0 <= n -> 0 <= n < 10 ^ Z.of_nat (S (Z.to_nat (Z.log2 n))).
Proof.
  intros Hn. split; [exact Hn |].
  rewrite Nat2Z.inj_succ, Z2Nat.id by apply Z.log2_nonneg.
  destruct (Z.eq_dec n 0) as [-> | Hne]; [reflexivity |].
  pose proof (Z.log2_spec n ltac:(lia)) as [_ Hlt].
  eapply Z.lt_le_trans; [exact Hlt |].
  apply Z.pow_le_mono_l. lia.
Qed.

(** The digits of a number of two digits or more are those of its tenth
    followed by its last digit. *)
Lemma toString_step n :
  10 <= n ->
  toString n
  = (toString (n / 10) ++ String (digit_char (n mod 10)) EmptyString)%string.
Proof.
  intros Hn. unfold toString at 1. cbn [digits].
  destruct (Z.ltb_spec n 10); [lia |]. f_equal.
  assert (H10 : 0 <= n / 10) by (apply Z.div_pos; lia).
  pose proof (toString_fuel (n / 10) H10) as Hfuel.
  unfold toString.
  destruct (Z.to_nat (Z.log2 n)) as [| f] eqn:E.
  - pose proof (Z.log2_nonneg n) as Hnn.
    assert (Z.log2 n = 0) by lia.
    pose proof (Z.log2_spec n ltac:(lia)) as [_ Hlt].
    rewrite H0 in Hlt. change (2 ^ Z.succ 0) with 2 in Hlt. lia.
  - apply digits_fuel; [| exact Hfuel].
    pose proof (toString_fuel n ltac:(lia)) as [_ Hf]. rewrite E in Hf.
    split; [exact H10 |].
    apply Z.div_lt_upper_bound; [lia |].
    rewrite (Nat2Z.inj_succ (S f)), Z.pow_succ_r in Hf by lia. lia.
Qed.

Lemma append_assoc (a b c : string) :
  ((a ++ b) ++ c)%string = (a ++ (b ++ c))%string.
Proof. induction a as [| x a IH]; simpl; [reflexivity |]. rewrite IH. reflexivity. Qed.

Lemma toString_last5 n :
  100000 <= n -> toString n = (toString (n / 100000) ++ last5 n)%string.
Proof.
  intros Hn.
  assert (H1 : 10000 <= n / 10) by (apply Z.div_le_lower_bound; lia).
  assert (H2 : 1000 <= n / 10 / 10) by (apply Z.div_le_lower_bound; lia).
  assert (H3 : 100 <= n / 10 / 10 / 10) by (apply Z.div_le_lower_bound; lia).
  assert (H4 : 10 <= n / 10 / 10 / 10 / 10)
    by (apply Z.div_le_lower_bound; lia).
  rewrite (toString_step n) by lia.
  rewrite (toString_step (n / 10)) by lia.
  rewrite (toString_step (n / 10 / 10)) by lia.
  rewrite (toString_step (n / 10 / 10 / 10)) by lia.
  rewrite (toString_step (n / 10 / 10 / 10 / 10)) by lia.
  rewrite !append_assoc. simpl append. unfold last5.
  rewrite !Z.div_div by lia. reflexivity.
Qed.

Lemma substring_app_r a b :
  String.substring (String.length a) (String.length b) (a ++ b)%string = b.
Proof.
  induction a as [| x a IH]; simpl; [| exact IH].
  induction b as [| y b IHb]; simpl; [reflexivity |].
  rewrite IHb. reflexivity.
Qed.

Lemma length_append a b :
  String.length (a ++ b)%string = (String.length a + String.length b)%nat.
Proof. induction a as [| x a IH]; simpl; [reflexivity |]. rewrite IH. reflexivity. Qed.

Lemma slice_last_app a b :
  slice_last (String.length b) (a ++ b)%string = b.
Proof.
  unfold slice_last. rewrite length_append.
  replace (String.length a + String.length b - String.length b)%nat
    with (String.length a) by lia.
  apply substring_app_r.
Qed.

Lemma last5_period n k : 0 <= n -> last5 (n + 100000 * k) = last5 n.
Proof.
  intros Hn. unfold last5.
  assert (H0 : (n + 100000 * k) mod 10 = n mod 10).
  { replace (n + 100000 * k) with (n + (10000 * k) * 10) by lia.
    apply Z.mod_add. lia. }
  assert (Hd : forall d m, 0 < d -> 100000 = d * (10 * m) ->
                 (n + 100000 * k) / d mod 10 = n / d mod 10).
  { intros d m Hpos Hdm.
    replace (n + 100000 * k) with (n + (10 * m * k) * d)
      by (rewrite Hdm; ring).
    rewrite Z.div_add by lia.
    replace (n / d + 10 * m * k) with (n / d + (m * k) * 10) by lia.
    apply Z.mod_add. lia. }
  rewrite H0.
  rewrite (Hd 10000 1), (Hd 1000 10), (Hd 100 100), (Hd 10 1000) by lia.
  reflexivity.
Qed.

End JSNumberFacts.

(** X20. The anonymous id of an upload is ENTRY_ followed by the last
    five decimal digits of the millisecond clock, so it is not unique:
    two uploads whose clocks differ by a multiple of 100000 ms (100
    seconds) get the same anonymous id. *)
Theorem anonymousId_repeats (now k : Z) :
  100000 <= now -> 0 <= k ->
  anonymousId now = String.append "ENTRY_" (JSNumber.last5 now)
  /\ anonymousId (now + 100000 * k) = anonymousId now.
Proof.
  intros Hn Hk.
  assert (Hid : forall n, 100000 <= n ->
            anonymousId n = String.append "ENTRY_" (JSNumber.last5 n)).
  { intros n H. unfold anonymousId.
    rewrite JSNumberFacts.toString_last5 by exact H.
    change 5%nat with (String.length (JSNumber.last5 n)).
    rewrite JSNumberFacts.slice_last_app. reflexivity. }
  split; [apply Hid; exact Hn |].
  rewrite !Hid by nia. rewrite JSNumberFacts.last5_period by lia.
  reflexivity.
Qed.

Lemma anonymousId_repeats_witness :
  anonymousId (startDate + 100000) = anonymousId startDate
  /\ anonymousId (startDate + 123) = "ENTRY_00123"%string.
Proof.
  pose proof (anonymousId_repeats startDate 1 ltac:(vm_compute; discriminate)
                ltac:(lia)) as [_ H].
  split; [exact H | reflexivity].
Defined.

Lemma qualification_is_earned_witness :
  map status (submissions (serve accept_all earning_trace empty_db))
  = [QUALIFIED]
  /\ Forall (fun x => 25 <= cast_count (user_id (row x))
                              (serve accept_all earning_trace empty_db))
       (winners (snd (getWinners 1 (serve accept_all earning_trace empty_db)))).
Proof.
  pose proof (qualification_is_earned accept_all earning_trace) as [_ H].
  split; [reflexivity | exact (H 1)].
Defined.
